(** * TF Detection API converter (datumaro plugin): instance grouping and
      feature encoding

    Shallow embedding of
    [datumaro/plugins/tf_detection_api_format/converter.py] and the
    properties of its instance grouper and feature encoder.

    Conventions of the embedding:
    - Python [int] is [Z]; annotation geometry is in whole pixels.  The true
      division [a / b] is the exact quotient in [Q] (Python rounds it to the
      nearest double, a monotone map that fixes 0 and 1) and raises
      [ZeroDivisionError] when [b = 0].
    - Python [str] is a list of Unicode scalar values, [bytes] a list of
      [byte].
    - A raised exception is the [Raise] case of [result]; code with I/O runs
      in the monad [M], which threads the trace of I/O events and keeps the
      events performed before an exception. *)

From Stdlib Require Import QArith.
From Stdlib Require Import DecimalString.
From Stdlib.Strings Require Import Byte.
From stdpp Require Import gmap strings list fin_maps.

Local Open Scope Z_scope.

(** ** Python prelude *)

(** Unicode scalar values: code points outside the surrogate range. *)
Definition is_scalar (c : N) : bool :=
  ((c <? 0xD800) || ((0xDFFF <? c) && (c <? 0x110000)))%N.

Record char : Type := Char { code : N; code_ok : is_scalar code = true }.

Definition pystr : Type := list char.
Definition bytes : Type := list byte.

#[global] Instance char_eq_dec : EqDecision char.
Proof.
  intros [c1 H1] [c2 H2]. destruct (decide (c1 = c2)) as [->|Hne].
  - left. f_equal. apply proof_irrel.
  - right. congruence.
Defined.

(** [chr(n)] for a scalar value [n]; the replacement character stands for
    the code points that the model of [str] leaves out. *)
Definition chr (n : N) : char :=
  match is_scalar n as b return is_scalar n = b → char with
  | true => λ H, Char n H
  | false => λ _, Char 0xFFFD eq_refl
  end eq_refl.

#[global] Instance char_countable : Countable char.
Proof.
  apply (inj_countable' code chr). intros [c H]. unfold chr. simpl.
  generalize (eq_refl (is_scalar c)).
  generalize (is_scalar c) at 2 3. intros b. destruct b; intros E.
  - f_equal. apply proof_irrel.
  - congruence.
Defined.

(** A string literal of the source. *)
Definition lit (s : string) : pystr :=
  map (λ a, chr (Ascii.N_of_ascii a)) (String.list_ascii_of_string s).

(** [str(n)] for an integer. *)
Definition str_of_int (n : Z) : pystr :=
  lit (NilZero.string_of_int (Z.to_int n)).

Definition byte_of_N (n : N) : byte := default Byte.x00 (Byte.of_N n).

(** [s.encode('utf-8')]. *)
Definition utf8_char (c : char) : bytes :=
  let n := code c in
  (if n <? 0x80 then [byte_of_N n]
   else if n <? 0x800 then
     [byte_of_N (N.lor 0xC0 (N.shiftr n 6));
      byte_of_N (N.lor 0x80 (N.land n 0x3F))]
   else if n <? 0x10000 then
     [byte_of_N (N.lor 0xE0 (N.shiftr n 12));
      byte_of_N (N.lor 0x80 (N.land (N.shiftr n 6) 0x3F));
      byte_of_N (N.lor 0x80 (N.land n 0x3F))]
   else
     [byte_of_N (N.lor 0xF0 (N.shiftr n 18));
      byte_of_N (N.lor 0x80 (N.land (N.shiftr n 12) 0x3F));
      byte_of_N (N.lor 0x80 (N.land (N.shiftr n 6) 0x3F));
      byte_of_N (N.lor 0x80 (N.land n 0x3F))])%N.

Definition encode_utf8 (s : pystr) : bytes := s ≫= utf8_char.

(** The constants of the [string] module. *)
Definition digits : pystr := lit "0123456789".
Definition ascii_lowercase : pystr := lit "abcdefghijklmnopqrstuvwxyz".
Definition ascii_uppercase : pystr := lit "ABCDEFGHIJKLMNOPQRSTUVWXYZ".
Definition ascii_letters : pystr := ascii_lowercase ++ ascii_uppercase.
Definition punctuation : pystr :=
  lit "!" ++ [chr 34] ++ lit "#$%&'()*+,-./:;<=>?@[\]^_`{|}~".
Definition whitespace : pystr := map chr [32; 9; 10; 13; 11; 12]%N.
Definition printable : pystr :=
  digits ++ ascii_letters ++ punctuation ++ whitespace.

Inductive exn : Type :=
| ValueError
| IndexError
| ZeroDivisionError
| Exception (msg : pystr).

Inductive result (A : Type) : Type :=
| Ok (a : A)
| Raise (e : exn).
Arguments Ok {A} a.
Arguments Raise {A} e.

#[global] Instance result_ret : MRet result := λ A a, Ok a.
#[global] Instance result_bind : MBind result := λ A B f m,
  match m with Ok a => f a | Raise e => Raise e end.

(** [for a in l: s = body(s, a)] with exceptions. *)
Fixpoint for_each {S A : Type} (body : S → A → result S) (s : S) (l : list A)
  : result S :=
  match l with
  | [] => Ok s
  | a :: l' => s' ← body s a; for_each body s' l'
  end.

(** [itertools.groupby(it, key)]: the run of elements whose key equals
    [tgtkey], and the later runs. *)
Fixpoint groupby_run {A K : Type} `{EqDecision K} (key : A → K) (tgtkey : K)
    (it : list A) : list A * list (K * list A) :=
  match it with
  | [] => ([], [])
  | a :: it' =>
      if decide (key a = tgtkey) then
        let '(g, later) := groupby_run key tgtkey it' in (a :: g, later)
      else
        let '(g, later) := groupby_run key (key a) it' in
        ([], (key a, a :: g) :: later)
  end.

Definition groupby {A K : Type} `{EqDecision K} (key : A → K) (it : list A)
  : list (K * list A) :=
  match it with
  | [] => []
  | a :: it' =>
      let '(g, later) := groupby_run key (key a) it' in (key a, a :: g) :: later
  end.

(** [max(it, key=key)]: the running best is replaced only by a strictly
    greater element. *)
Fixpoint max_from {A : Type} (key : A → Z) (best : A) (it : list A) : A :=
  match it with
  | [] => best
  | a :: it' => max_from key (if decide (key best < key a) then a else best) it'
  end.

Definition py_max_key {A : Type} (key : A → Z) (it : list A) : result A :=
  match it with
  | [] => Raise ValueError
  | a :: it' => Ok (max_from key a it')
  end.

(** [min(it, default=d)] and [max(it, default=d)] on integers. *)
Definition py_min (it : list Z) (default : Z) : Z :=
  match it with
  | [] => default
  | x :: it' => foldl (λ m y, if decide (y < m) then y else m) x it'
  end.

Definition py_max (it : list Z) (default : Z) : Z :=
  match it with
  | [] => default
  | x :: it' => foldl (λ m y, if decide (m < y) then y else m) x it'
  end.

(** [a / b] on integers. *)
Definition truediv (a b : Z) : result Q :=
  if decide (b = 0) then Raise ZeroDivisionError
  else Ok (inject_Z a / inject_Z b)%Q.

(** ** Dataset model *)

(** Modelled from the spec: [AnnotationType] of
    [datumaro.components.extractor], a tagged union over bounding box, mask
    and the kinds the converter ignores. *)
Module AnnotationType.
Inductive t : Type := bbox | mask | other.
End AnnotationType.

#[global] Instance AnnotationType_eq_dec : EqDecision AnnotationType.t.
Proof. solve_decision. Defined.

Definition Rect : Type := Z * Z * Z * Z.

Definition b0 (b : Rect) : Z := b.1.1.1.
Definition b1 (b : Rect) : Z := b.1.1.2.
Definition b2 (b : Rect) : Z := b.1.2.
Definition b3 (b : Rect) : Z := b.2.

(** Modelled from the spec: an annotation of [datumaro.components.extractor]
    with its kind, its optional group id, its optional label reference, the
    values of [get_area()] and [get_bbox()] and, for a mask, its raster. *)
Record Annotation (Raster : Type) : Type := {
  type : AnnotationType.t;
  group : option Z;
  label : option Z;
  get_area : Z;
  get_bbox : Rect;
  mask_image : Raster;
}.
Arguments type {Raster} _.
Arguments group {Raster} _.
Arguments label {Raster} _.
Arguments get_area {Raster} _.
Arguments get_bbox {Raster} _.
Arguments mask_image {Raster} _.

(** [not g_id] for a group id. *)
Definition falsy (g_id : option Z) : bool :=
  match g_id with
  | None => true
  | Some g => bool_decide (g = 0)
  end.

(** ** Instance grouper *)

Section Grouper.
Context {Raster : Type}.

Definition _find_instance_anns (annotations : list (Annotation Raster))
  : list (Annotation Raster) :=
  filter (λ a, type a ∈ [AnnotationType.bbox; AnnotationType.mask]) annotations.

Definition _find_instances (annotations : list (Annotation Raster))
  : list (list (Annotation Raster)) :=
  let instance_anns := _find_instance_anns annotations in
  foldl (λ ann_groups '(g_id, grp),
           if falsy g_id then ann_groups ++ map (λ a, [a]) grp
           else ann_groups ++ [grp])
        [] (groupby group instance_anns).

Definition find_group_leader (grp : list (Annotation Raster))
  : result (Annotation Raster) :=
  py_max_key get_area grp.

Definition _compute_bbox (annotations : list (Annotation Raster)) : Rect :=
  let boxes := map get_bbox annotations in
  let x0 := py_min (map b0 boxes) 0 in
  let y0 := py_min (map b1 boxes) 0 in
  let x1 := py_max (map (λ b, b0 b + b2 b) boxes) 0 in
  let y1 := py_max (map (λ b, b1 b + b3 b) boxes) 0 in
  (x0, y0, x1 - x0, y1 - y0).

End Grouper.

(** ** Label catalog *)

(** [l[i]], with Python's negative indices. *)
Definition py_index {A : Type} (l : list A) (i : Z) : result A :=
  let n := Z.of_nat (length l) in
  let j := if decide (i < 0) then i + n else i in
  if decide (0 ≤ j < n) then
    match l !! Z.to_nat j with
    | Some x => Ok x
    | None => Raise IndexError
    end
  else Raise IndexError.

(** [d[k] = v] on an [OrderedDict]: a known key keeps its place. *)
Fixpoint od_set {K V : Type} `{EqDecision K} (k : K) (v : V)
    (d : list (K * V)) : list (K * V) :=
  match d with
  | [] => [(k, v)]
  | (k', v') :: d' =>
      if decide (k' = k) then (k, v) :: d' else (k', v') :: od_set k v d'
  end.

(** [d.get(k, default)]. *)
Fixpoint od_get {K V : Type} `{EqDecision K} (d : list (K * V)) (k : K)
    (default : V) : V :=
  match d with
  | [] => default
  | (k', v') :: d' => if decide (k' = k) then v' else od_get d' k default
  end.

(** [LabelCategories.items], each item reduced to its [name]. *)
Definition LabelCategories : Type := list pystr.

Definition get_label (label_categories : LabelCategories)
    (label_id : option Z) : result pystr :=
  match label_id with
  | Some i => py_index label_categories i
  | None => Ok (lit "")
  end.

Definition make_label_ids (label_categories : LabelCategories)
  : list (pystr * Z) :=
  foldl (λ d '(name, idx), od_set name idx d) []
        (imap (λ idx name, (name, 1 + Z.of_nat idx)) label_categories).

Definition map_label_id (label_categories : LabelCategories)
    (label_id : option Z) : result Z :=
  name ← get_label label_categories label_id;
  Ok (od_get (make_label_ids label_categories) name 0).

(** ** Feature encoder *)

Definition _printable : gset char := list_to_set printable.

Definition _make_printable (s : pystr) : pystr :=
  filter (λ x, x ∈ _printable) s.

(** [tf.train.Feature] with its three list kinds. *)
Inductive Feature : Type :=
| int64_list (value : list Z)
| bytes_list (value : list bytes)
| float_list (value : list Q).

Definition int64_feature (value : Z) : Feature := int64_list [value].
Definition int64_list_feature (value : list Z) : Feature := int64_list value.
Definition bytes_feature (value : bytes) : Feature := bytes_list [value].
Definition bytes_list_feature (value : list bytes) : Feature :=
  bytes_list value.
Definition float_list_feature (value : list Q) : Feature := float_list value.

(** The converter object: the two flags of [__init__] and the two closures
    that [__call__] stores. *)
Record TfDetectionApiConverter : Type := {
  _save_images : bool;
  _save_masks : bool;
  _get_label : option Z → result pystr;
  _get_label_id : option Z → result Z;
}.

(** The collaborators outside this file: [merge_masks], [encode_image],
    [os.path.join], and the constants of [DetectionApiPath] and of the
    extractor module. *)
Class Externals (Raster : Type) : Type := {
  merge_masks : list Raster → option Raster;
  encode_image : Raster → pystr → bytes;
  path_join : pystr → pystr → pystr;
  IMAGE_EXT : pystr;
  IMAGE_FORMAT : pystr;
  LABELMAP_FILE : pystr;
  DEFAULT_SUBSET_NAME : pystr;
}.

(** The per-instance lists that the export loop fills. *)
Record Lists : Type := {
  xmins : list Q;
  xmaxs : list Q;
  ymins : list Q;
  ymaxs : list Q;
  classes_text : list bytes;
  classes : list Z;
  masks : list bytes;
}.

Definition Instance_ (Raster : Type) : Type :=
  Annotation Raster * option Raster * Rect.

Section Encoder.
Context {Raster : Type} `{!Externals Raster}.
Variable self : TfDetectionApiConverter.

(** The members of a group that make the instance: [boxes + masks]. *)
Definition group_anns (grp : list (Annotation Raster))
  : list (Annotation Raster) :=
  let boxes := filter (λ a, type a = AnnotationType.bbox) grp in
  let masks := filter (λ a, type a = AnnotationType.mask) grp in
  boxes ++ masks.

Definition _find_instance_parts (grp : list (Annotation Raster))
    (img_width img_height : Z) : result (Instance_ Raster) :=
  let masks := filter (λ a, type a = AnnotationType.mask) grp in
  let anns := group_anns grp in
  leader ← find_group_leader anns;
  let bbox := _compute_bbox anns in
  let mask :=
    if _save_masks self then merge_masks (map mask_image masks) else None in
  Ok (leader, mask, bbox).

(** The body of the loop over the instances. *)
Definition export_instance (width height : Z) (acc : Lists)
    (inst : Instance_ Raster) : result Lists :=
  let '(leader, mask, box) := inst in
  name ← _get_label self (label leader);
  let text := encode_utf8 (_make_printable name) in
  label_id ← _get_label_id self (label leader);
  xmin ← truediv (b0 box) width;
  xmax ← truediv (b0 box + b2 box) width;
  ymin ← truediv (b1 box) height;
  ymax ← truediv (b1 box + b3 box) height;
  let mask' :=
    match mask with
    | Some m => encode_image m (lit ".png")
    | None => []
    end in
  Ok {| xmins := xmins acc ++ [xmin];
        xmaxs := xmaxs acc ++ [xmax];
        ymins := ymins acc ++ [ymin];
        ymaxs := ymaxs acc ++ [ymax];
        classes_text := classes_text acc ++ [text];
        classes := classes acc ++ [label_id];
        masks := if _save_masks self then masks acc ++ [mask']
                 else masks acc |}.

Definition _export_instances (instances : list (Instance_ Raster))
    (width height : Z) : result (gmap string Feature) :=
  acc ← for_each (export_instance width height)
        {| xmins := []; xmaxs := []; ymins := []; ymaxs := [];
           classes_text := []; classes := []; masks := [] |} instances;
  let result0 : gmap string Feature := ∅ in
  Ok (if decide (classes acc = []) then result0
      else
        let result1 : gmap string Feature :=
          <["image/object/bbox/xmin" := float_list_feature (xmins acc)]>
          (<["image/object/bbox/xmax" := float_list_feature (xmaxs acc)]>
          (<["image/object/bbox/ymin" := float_list_feature (ymins acc)]>
          (<["image/object/bbox/ymax" := float_list_feature (ymaxs acc)]>
          (<["image/object/class/text" :=
               bytes_list_feature (classes_text acc)]>
          (<["image/object/class/label" :=
               int64_list_feature (classes acc)]> ∅))))) in
        if decide (masks acc = []) then result1
        else <["image/object/mask" := bytes_list_feature (masks acc)]> result1).

End Encoder.

(** ** Dataset items and the run over an extractor *)

(** Modelled from the spec: the image metadata of an item, its pixel size
    [(height, width)] and its optional pixel data. *)
Record Image (Raster : Type) : Type := {
  size : Z * Z;
  data : option Raster;
}.
Arguments size {Raster} _.
Arguments data {Raster} _.

(** Modelled from the spec: a dataset item with its id, its annotations and
    its optional image metadata. *)
Record DatasetItem (Raster : Type) : Type := {
  item_id : pystr;
  annotations : list (Annotation Raster);
  image : option (Image Raster);
}.
Arguments item_id {Raster} _.
Arguments annotations {Raster} _.
Arguments image {Raster} _.

(** [item.has_image]: the item carries image metadata. *)
Definition has_image {Raster : Type} (item : DatasetItem Raster) : bool :=
  bool_decide (is_Some (image item)).

(** Modelled from the spec: the dataset iterator, with its label categories
    (when it has any), the names of its subsets, the items of a named subset
    and the items of the whole dataset. *)
Record Extractor (Raster : Type) : Type := {
  categories : option LabelCategories;
  subsets : list (option pystr);
  get_subset : pystr → list (DatasetItem Raster);
  items : list (DatasetItem Raster);
}.
Arguments categories {Raster} _.
Arguments subsets {Raster} _.
Arguments get_subset {Raster} _.
Arguments items {Raster} _.

(** The I/O events of a run, oldest first. *)
Inductive Event : Type :=
| Makedirs (path : pystr)
| OpenText (path : pystr)
| WriteText (path : pystr) (text : pystr)
| OpenRecords (path : pystr)
| WriteRecord (path : pystr) (record : gmap string Feature)
| Close (path : pystr)
| LogWarning (msg : pystr).

(** The records written in a trace, in their order. *)
Definition records_written (w : list Event) : list (gmap string Feature) :=
  w ≫= (λ e, match e with WriteRecord _ record => [record] | _ => [] end).

Definition M (A : Type) : Type := list Event → result A * list Event.

#[global] Instance M_ret : MRet M := λ A a w, (Ok a, w).
#[global] Instance M_bind : MBind M := λ A B f m w,
  match m w with
  | (Ok a, w') => f a w'
  | (Raise e, w') => (Raise e, w')
  end.

Definition emit (e : Event) : M unit := λ w, (Ok tt, w ++ [e]).

Definition lift {A : Type} (r : result A) : M A := λ w, (r, w).

(** [for a in l: body(a)] with I/O. *)
Fixpoint for_M {A : Type} (body : A → M unit) (l : list A) : M unit :=
  match l with
  | [] => mret tt
  | a :: l' => body a ;; for_M body l'
  end.

(** [with open(path) as f: body]: the file is closed on the way out, also
    when [body] raises. *)
Definition with_file (open : Event) (path : pystr) (body : M unit) : M unit :=
  λ w, match body (w ++ [open]) with
       | (r, w') => (r, w' ++ [Close path])
       end.

Section Run.
Context {Raster : Type} `{!Externals Raster}.

Definition no_image_info (item : DatasetItem Raster) : pystr :=
  lit "Failed to export dataset item '" ++ item_id item ++
  lit "': item has no image info".

Definition _make_tf_example (self : TfDetectionApiConverter)
    (item : DatasetItem Raster) : M (gmap string Feature) :=
  let features : gmap string Feature :=
    <["image/source_id" := bytes_feature (encode_utf8 (item_id item))]>
    (<["image/filename" :=
         bytes_feature (encode_utf8 (item_id item ++ IMAGE_EXT))]> ∅) in
  match image item with
  | None => lift (Raise (Exception (no_image_info item)))
  | Some img =>
      let '(height, width) := size img in
      let features : gmap string Feature :=
        <["image/height" := int64_feature height]>
        (<["image/width" := int64_feature width]> ∅) ∪ features in
      let features : gmap string Feature :=
        <["image/encoded" := bytes_feature []]>
        (<["image/format" := bytes_feature []]> ∅) ∪ features in
      features ←
        (if _save_images self then
           match data img with
           | Some pixels =>
               let fmt := IMAGE_FORMAT in
               let buffer := encode_image pixels IMAGE_EXT in
               mret
                 (<["image/encoded" := bytes_feature buffer]>
                  (<["image/format" := bytes_feature (encode_utf8 fmt)]> ∅)
                  ∪ features)
           | None =>
               emit (LogWarning (lit "Item '" ++ item_id item ++
                                 lit "' has no image")) ;;
               mret features
           end
         else mret features);
      let instances := _find_instances (annotations item) in
      instances ← lift (mapM (λ i, _find_instance_parts self i width height)
                             instances);
      exported ← lift (_export_instances self instances width height);
      mret (exported ∪ features)
  end.

(** [if subset_name:] for a subset name. *)
Definition truthy_name (subset_name : option pystr) : bool :=
  match subset_name with
  | Some (_ :: _) => true
  | _ => false
  end.

Definition labelmap_entry (label_name : pystr) (idx : Z) : pystr :=
  lit "item {" ++ [chr 10] ++
  ([chr 9] ++ lit "id: " ++ str_of_int idx ++ [chr 10]) ++
  ([chr 9] ++ lit "name: '" ++ label_name ++ lit "'" ++ [chr 10]) ++
  lit "}" ++ [chr 10; chr 10].

(** The assignments of [__call__] that bind the label catalog. *)
Definition bind_labels (self : TfDetectionApiConverter)
    (label_categories : LabelCategories) : TfDetectionApiConverter :=
  {| _save_images := _save_images self;
     _save_masks := _save_masks self;
     _get_label := get_label label_categories;
     _get_label_id := map_label_id label_categories |}.

(** The subset behind a name of [extractor.subsets()]: its name and its
    items. *)
Definition subset_of (extractor : Extractor Raster)
    (subset_name : option pystr) : pystr * list (DatasetItem Raster) :=
  match subset_name with
  | Some name =>
      if truthy_name subset_name then (name, get_subset extractor name)
      else (DEFAULT_SUBSET_NAME, items extractor)
  | None => (DEFAULT_SUBSET_NAME, items extractor)
  end.

Definition write_labelmap (label_ids : list (pystr * Z)) (save_dir : pystr)
  : M unit :=
  let labelmap_path := path_join save_dir LABELMAP_FILE in
  with_file (OpenText labelmap_path) labelmap_path
    (for_M (λ '(label_name, idx),
              emit (WriteText labelmap_path (labelmap_entry label_name idx)))
           label_ids).

Definition anno_path (save_dir subset_name : pystr) : pystr :=
  path_join save_dir (subset_name ++ lit ".tfrecord").

(** The body of the loop over the items of a subset. *)
Definition write_item (self : TfDetectionApiConverter) (path : pystr)
    (item : DatasetItem Raster) : M unit :=
  tf_example ← _make_tf_example self item;
  emit (WriteRecord path tf_example).

(** The body of the loop over the subsets. *)
Definition export_subset (self : TfDetectionApiConverter)
    (extractor : Extractor Raster) (label_ids : list (pystr * Z))
    (save_dir : pystr) (subset_name : option pystr) : M unit :=
  let '(subset_name, subset) := subset_of extractor subset_name in
  write_labelmap label_ids save_dir ;;
  with_file (OpenRecords (anno_path save_dir subset_name))
    (anno_path save_dir subset_name)
    (for_M (write_item self (anno_path save_dir subset_name)) subset).

(** The subsets that [__call__] goes through. *)
Definition subsets_to_export (extractor : Extractor Raster)
  : list (option pystr) :=
  if decide (length (subsets extractor) = 0%nat) then [None]
  else subsets extractor.

Definition __call__ (self : TfDetectionApiConverter)
    (extractor : Extractor Raster) (save_dir : pystr) : M unit :=
  emit (Makedirs save_dir) ;;
  let label_categories := default [] (categories extractor) in
  let label_ids := make_label_ids label_categories in
  let self := bind_labels self label_categories in
  for_M (export_subset self extractor label_ids save_dir)
        (subsets_to_export extractor).

End Run.

(** ** The union box in the words of the specification *)

(** Minimum and maximum of a collection, 0 over an empty one. *)
Definition min_or_0 (xs : list Z) : Z :=
  match xs with
  | [] => 0
  | x :: xs' => fold_right Z.min x xs'
  end.

Definition max_or_0 (xs : list Z) : Z :=
  match xs with
  | [] => 0
  | x :: xs' => fold_right Z.max x xs'
  end.

(** The box [(x0, y0, x1 - x0, y1 - y0)] over the bounding rectangles of the
    members, in the order of the group. *)
Definition union_bbox {Raster : Type} (members : list (Annotation Raster))
  : Rect :=
  let x0 := min_or_0 (map (λ a, b0 (get_bbox a)) members) in
  let y0 := min_or_0 (map (λ a, b1 (get_bbox a)) members) in
  let x1 := max_or_0 (map (λ a, b0 (get_bbox a) + b2 (get_bbox a)) members) in
  let y1 := max_or_0 (map (λ a, b1 (get_bbox a) + b3 (get_bbox a)) members) in
  (x0, y0, x1 - x0, y1 - y0).

(** ** The character sets of the printable filter *)

(** The printable ASCII characters in the words of the specification: the
    space and the graphic characters, codes 32 to 126. *)
Definition graphic_ascii (c : char) : Prop := (32 ≤ code c ≤ 126)%N.

#[global] Instance graphic_ascii_dec c : Decision (graphic_ascii c).
Proof. unfold graphic_ascii. apply _. Defined.

(** The characters of [string.printable] by their codes: the space and the
    graphic characters, codes 32 to 126, and the five control characters
    that the [string] module counts as whitespace, codes 9 to 13 (TAB, LF,
    VT, FF, CR). *)
Definition printable_ascii (c : char) : Prop :=
  (32 ≤ code c ≤ 126 ∨ 9 ≤ code c ≤ 13)%N.

#[global] Instance printable_ascii_dec c : Decision (printable_ascii c).
Proof. unfold printable_ascii. apply _. Defined.

(** A string of ASCII characters as bytes, one byte per character. *)
Definition ascii_bytes (s : pystr) : bytes :=
  map (λ c, byte_of_N (code c)) s.

(** ** Pixel boxes and the image *)

(** A rectangle within an image of the given width and height: left and top
    are not negative, right and bottom do not pass the width and height. *)
Definition inside_image (width height : Z) (r : Rect) : Prop :=
  0 ≤ b0 r ∧ 0 ≤ b1 r ∧ b0 r + b2 r ≤ width ∧ b1 r + b3 r ≤ height.

(** A rectangle whose width and height are not negative. *)
Definition proper_rect (r : Rect) : Prop := 0 ≤ b2 r ∧ 0 ≤ b3 r.

(** ** Example data *)

(** Annotations over a one-point raster type. *)
Definition box_ann (g l : option Z) (area : Z) (r : Rect) : Annotation unit :=
  {| type := AnnotationType.bbox; group := g; label := l; get_area := area;
     get_bbox := r; mask_image := tt |}.

Definition mask_ann (g l : option Z) (area : Z) (r : Rect) : Annotation unit :=
  {| type := AnnotationType.mask; group := g; label := l; get_area := area;
     get_bbox := r; mask_image := tt |}.

Definition other_ann (g l : option Z) (area : Z) (r : Rect) : Annotation unit :=
  {| type := AnnotationType.other; group := g; label := l; get_area := area;
     get_bbox := r; mask_image := tt |}.

(** Collaborators over the one-point raster type. *)
#[global] Instance unit_externals : Externals unit := {|
  merge_masks := λ ms, match ms with [] => None | _ :: _ => Some tt end;
  encode_image := λ _ _, [Byte.x89; Byte.x50; Byte.x4e; Byte.x47];
  path_join := λ a b, a ++ lit "/" ++ b;
  IMAGE_EXT := lit ".jpg";
  IMAGE_FORMAT := lit "jpeg";
  LABELMAP_FILE := lit "label_map.pbtxt";
  DEFAULT_SUBSET_NAME := lit "default";
|}.

Definition plain_converter (save_images save_masks : bool)
    (label_categories : LabelCategories) : TfDetectionApiConverter :=
  {| _save_images := save_images; _save_masks := save_masks;
     _get_label := get_label label_categories;
     _get_label_id := map_label_id label_categories |}.

(** Two annotations of group 1 with an annotation of group 2 between them. *)
Definition interleaved_groups : list (Annotation unit) :=
  [ box_ann (Some 1) None 100 (0, 0, 10, 10);
    box_ann (Some 2) None 100 (20, 20, 10, 10);
    mask_ann (Some 1) None 50 (0, 0, 10, 10) ].

(** A mask listed before a box of the same area. *)
Definition mask_then_box : list (Annotation unit) :=
  [ mask_ann (Some 1) None 5 (1, 2, 3, 4);
    box_ann (Some 1) None 5 (0, 0, 5, 1) ].

(** A group made of one mask. *)
Definition lone_mask : list (Annotation unit) :=
  [ mask_ann (Some 1) None 12 (1, 2, 3, 4) ].

(** The name [café] and a catalog that holds it. *)
Definition cafe : pystr := lit "caf" ++ [chr 233].

(** A name with a TAB between two letters. *)
Definition tabbed : pystr := lit "a" ++ [chr 9] ++ lit "b".

Definition cafe_instances : list (Instance_ unit) :=
  [ (box_ann None (Some 0) 100 (0, 0, 10, 10), None, (0, 0, 10, 10)) ].

(** Items of a 100 by 50 image. *)
Definition image_100x50 : Image unit := {| size := (50, 100); data := None |}.

Definition two_boxes_item : DatasetItem unit :=
  {| item_id := lit "frame_1";
     annotations := [ box_ann None (Some 0) 100 (0, 0, 10, 10);
                      box_ann None None 300 (20, 20, 30, 10) ];
     image := Some image_100x50 |}.

(** A box inside the image by its four bounds, with a negative width. *)
Definition negative_width_item : DatasetItem unit :=
  {| item_id := lit "frame_2";
     annotations := [ box_ann None None 10 (5, 0, -10, 1) ];
     image := Some image_100x50 |}.

Definition no_image_item : DatasetItem unit :=
  {| item_id := lit "frame_3"; annotations := []; image := None |}.



Definition train_extractor : Extractor unit :=
  {| categories := Some [lit "cat"];
     subsets := [Some (lit "train")];
     get_subset := λ _, [two_boxes_item; no_image_item; two_boxes_item];
     items := [two_boxes_item; no_image_item; two_boxes_item] |}.

(** The keys of the per-instance features. *)
Definition bbox_keys : list string :=
  [ "image/object/bbox/xmin"; "image/object/bbox/xmax";
    "image/object/bbox/ymin"; "image/object/bbox/ymax" ].

(** Two instances, the first with a merged mask and the second without. *)
Definition mixed_instances : list (Instance_ unit) :=
  [ (mask_ann (Some 1) (Some 0) 40 (0, 0, 10, 10), Some tt, (0, 0, 10, 10));
    (box_ann None None 300 (20, 20, 30, 10), None, (20, 20, 30, 10)) ].

(** ** Contiguous keys, enclosing boxes and the per-instance keys *)

(** What follows the leading run of [k] in a list of keys. *)
Fixpoint after_run {K : Type} `{EqDecision K} (k : K) (ks : list K) : list K :=
  match ks with
  | [] => []
  | k' :: ks' => if decide (k' = k) then after_run k ks' else ks
  end.

(** Equal keys are contiguous: a key does not come back once its run has
    ended. *)
Fixpoint contiguous {K : Type} `{EqDecision K} (ks : list K) : bool :=
  match ks with
  | [] => true
  | k :: ks' => bool_decide (k ∉ after_run k ks') && contiguous ks'
  end.

(** The rectangle [inner] lies within the rectangle [outer]. *)
Definition encloses (outer inner : Rect) : Prop :=
  b0 outer ≤ b0 inner ∧ b1 outer ≤ b1 inner ∧
  b0 inner + b2 inner ≤ b0 outer + b2 outer ∧
  b1 inner + b3 inner ≤ b1 outer + b3 outer.

(** The keys that [_export_instances] may set. *)
Definition object_keys : list string :=
  [ "image/object/bbox/xmin"; "image/object/bbox/xmax";
    "image/object/bbox/ymin"; "image/object/bbox/ymax";
    "image/object/class/text"; "image/object/class/label";
    "image/object/mask" ].

(** Group 1 with a box and a mask next to each other, an ungrouped box, and
    group 2. *)
Definition contiguous_groups : list (Annotation unit) :=
  [ box_ann (Some 1) None 100 (0, 0, 10, 10);
    mask_ann (Some 1) None 50 (2, 2, 12, 4);
    box_ann None None 30 (40, 40, 5, 5);
    other_ann (Some 1) None 0 (0, 0, 0, 0);
    box_ann (Some 2) None 100 (20, 20, 10, 10) ].

(** An item whose image is asked for but holds no pixel data. *)
Definition caption_only_item : DatasetItem unit :=
  {| item_id := lit "frame_6";
     annotations := [ other_ann None (Some 7) 0 (0, 0, 0, 0) ];
     image := Some {| size := (0, 0); data := None |} |}.

(** * Properties *)

(** ** [itertools.groupby] *)

Section GroupBy.
Context {A K : Type} `{EqDecision K} (key : A → K).

Lemma groupby_run_concat (tgtkey : K) (it : list A) :
  (groupby_run key tgtkey it).1 ++ concat ((groupby_run key tgtkey it).2.*2)
  = it.
Proof.
  revert tgtkey. induction it as [|a it IH]; intros tgtkey; [done|].
  simpl. destruct (decide (key a = tgtkey)).
  - specialize (IH tgtkey).
    destruct (groupby_run key tgtkey it) as [g later]. simpl in *. by f_equal.
  - specialize (IH (key a)).
    destruct (groupby_run key (key a) it) as [g later]. simpl in *.
    by f_equal.
Qed.

Lemma groupby_run_keys (tgtkey : K) (it : list A) :
  Forall (λ a, key a = tgtkey) (groupby_run key tgtkey it).1 ∧
  Forall (λ kg, kg.2 ≠ [] ∧ Forall (λ a, key a = kg.1) kg.2)
         (groupby_run key tgtkey it).2.
Proof.
  revert tgtkey. induction it as [|a it IH]; intros tgtkey; [by split|].
  simpl. destruct (decide (key a = tgtkey)).
  - destruct (IH tgtkey) as [Hg Hl].
    destruct (groupby_run key tgtkey it) as [g later]. simpl in *.
    split; [by constructor|done].
  - destruct (IH (key a)) as [Hg Hl].
    destruct (groupby_run key (key a) it) as [g later]. simpl in *.
    split; [done|]. constructor; [|done]. simpl. split; [done|].
    by constructor.
Qed.

Lemma groupby_concat (it : list A) : concat ((groupby key it).*2) = it.
Proof.
  destruct it as [|a it]; [done|]. unfold groupby.
  pose proof (groupby_run_concat (key a) it) as H.
  destruct (groupby_run key (key a) it) as [g later]. simpl in *.
  by f_equal.
Qed.

Lemma groupby_keys (it : list A) :
  Forall (λ kg, kg.2 ≠ [] ∧ Forall (λ a, key a = kg.1) kg.2) (groupby key it).
Proof.
  destruct it as [|a it]; [by constructor|]. unfold groupby.
  destruct (groupby_run_keys (key a) it) as [Hg Hl].
  destruct (groupby_run key (key a) it) as [g later]. simpl in *.
  constructor; [|done]. simpl. split; [done|]. by constructor.
Qed.

End GroupBy.

(** ** Instance grouper *)

Section GrouperProps.
Context {Raster : Type}.
Implicit Types (a : Annotation Raster) (g : list (Annotation Raster)).
Implicit Types (annotations : list (Annotation Raster)).

Lemma foldl_groups_bind (l : list (option Z * list (Annotation Raster)))
    (acc : list (list (Annotation Raster))) :
  foldl (λ ann_groups '(g_id, grp),
           if falsy g_id then ann_groups ++ map (λ a, [a]) grp
           else ann_groups ++ [grp]) acc l =
  acc ++ (l ≫= (λ kg, if falsy kg.1 then map (λ a, [a]) kg.2 else [kg.2])).
Proof.
  revert acc. induction l as [|[k grp] l IH]; intros acc; simpl.
  - by rewrite app_nil_r.
  - rewrite IH. destruct (falsy k); by rewrite <- app_assoc.
Qed.

Lemma find_instances_unfold annotations :
  _find_instances annotations =
  groupby group (_find_instance_anns annotations) ≫=
    (λ kg, if falsy kg.1 then map (λ a, [a]) kg.2 else [kg.2]).
Proof. unfold _find_instances. by rewrite foldl_groups_bind. Qed.

Lemma concat_singletons g : concat (map (λ a, [a]) g) = g.
Proof. induction g as [|a g IH]; simpl; [done|by f_equal]. Qed.

Lemma concat_groups_bind (l : list (option Z * list (Annotation Raster))) :
  concat (l ≫= (λ kg, if falsy kg.1 then map (λ a, [a]) kg.2 else [kg.2]))
  = concat (l.*2).
Proof.
  induction l as [|[k grp] l IH]; [done|].
  rewrite bind_cons, concat_app, IH, fmap_cons. simpl. f_equal.
  destruct (falsy k); simpl; [apply concat_singletons|apply app_nil_r].
Qed.

(** The groups partition the bbox and mask annotations in their order. *)
Lemma find_instances_concat annotations :
  concat (_find_instances annotations) = _find_instance_anns annotations.
Proof.
  rewrite find_instances_unfold, concat_groups_bind. apply groupby_concat.
Qed.

Lemma elem_of_concat {B : Type} (x : B) (ls : list (list B)) :
  x ∈ concat ls ↔ ∃ l, x ∈ l ∧ l ∈ ls.
Proof.
  rewrite list_elem_of_In, in_concat. split.
  - intros (l & Hl & Hx). exists l. by rewrite !list_elem_of_In.
  - intros (l & Hx & Hl). exists l. by rewrite <- !list_elem_of_In.
Qed.

Lemma find_instances_elem g annotations :
  g ∈ _find_instances annotations →
  ∃ k grp, (k, grp) ∈ groupby group (_find_instance_anns annotations) ∧
    if falsy k then ∃ a, a ∈ grp ∧ g = [a] else g = grp.
Proof.
  rewrite find_instances_unfold. intros Hg.
  apply list_elem_of_bind in Hg as ([k grp] & Hin & Hkg). simpl in Hin.
  exists k, grp. split; [done|]. destruct (falsy k).
  - apply list_elem_of_fmap in Hin as (a & -> & Ha). eauto.
  - by apply list_elem_of_singleton in Hin.
Qed.

Lemma find_instances_nonempty g annotations :
  g ∈ _find_instances annotations → g ≠ [].
Proof.
  intros (k & grp & Hin & Hg)%find_instances_elem.
  pose proof (groupby_keys group (_find_instance_anns annotations)) as Hk.
  rewrite Forall_forall in Hk. apply Hk in Hin as [Hne _]. simpl in *.
  destruct (falsy k); [by destruct Hg as (a & _ & ->)|by subst].
Qed.

Lemma find_instances_kinds g a annotations :
  g ∈ _find_instances annotations → a ∈ g →
  a ∈ annotations ∧ type a ∈ [AnnotationType.bbox; AnnotationType.mask].
Proof.
  intros Hg Ha.
  assert (a ∈ _find_instance_anns annotations) as Hin.
  { rewrite <- find_instances_concat. apply elem_of_concat. eauto. }
  apply list_elem_of_filter in Hin as [? ?]. by split.
Qed.

(** C4: every bbox or mask annotation with a falsy group id gets a
    singleton group of its own: it occurs in the output as the group [[a]],
    a group that holds an ungrouped annotation holds nothing else, and the
    groups together are the bbox and mask annotations in their order, each
    occurrence once. *)
Theorem ungrouped_annotations_form_singletons annotations :
  (∀ a, a ∈ annotations →
        type a ∈ [AnnotationType.bbox; AnnotationType.mask] →
        falsy (group a) = true → [a] ∈ _find_instances annotations) ∧
  (∀ g a, g ∈ _find_instances annotations → a ∈ g →
          falsy (group a) = true → g = [a]) ∧
  concat (_find_instances annotations) = _find_instance_anns annotations.
Proof.
  assert (Hsingle : ∀ g a, g ∈ _find_instances annotations → a ∈ g →
            falsy (group a) = true → g = [a]).
  { intros g a (k & grp & Hin & Hg)%find_instances_elem Ha Hf.
    pose proof (groupby_keys group (_find_instance_anns annotations)) as Hk.
    rewrite Forall_forall in Hk. apply Hk in Hin as [_ Hkey]. simpl in *.
    destruct (falsy k) eqn:Hfk.
    - destruct Hg as (a' & _ & ->).
      by apply list_elem_of_singleton in Ha as ->.
    - subst grp. rewrite Forall_forall in Hkey.
      rewrite (Hkey a Ha) in Hf. congruence. }
  split; [|split; [exact Hsingle|apply find_instances_concat]].
  intros a Ha Hty Hf.
  assert (a ∈ concat (_find_instances annotations)) as Hc.
  { rewrite find_instances_concat. by apply list_elem_of_filter. }
  apply elem_of_concat in Hc as (g & Hag & Hg).
  by rewrite <- (Hsingle g a Hg Hag Hf).
Qed.

End GrouperProps.

(** C1: on [interleaved_groups] the grouper returns three groups, two of
    them for group id 1, while the annotations carry two distinct ids: a
    group id whose annotations are not contiguous is split. *)
Theorem noncontiguous_group_is_split :
  _find_instances interleaved_groups =
    [ [box_ann (Some 1) None 100 (0, 0, 10, 10)];
      [box_ann (Some 2) None 100 (20, 20, 10, 10)];
      [mask_ann (Some 1) None 50 (0, 0, 10, 10)] ] ∧
  length (_find_instances interleaved_groups) = 3%nat ∧
  length (remove_dups (map group (_find_instance_anns interleaved_groups)))
    = 2%nat.
Proof. vm_compute. by repeat split. Qed.

(** ** [min], [max] and the stable maximum *)

Lemma foldl_min_least (x : Z) (it : list Z) :
  let r := foldl (λ m y, if decide (y < m) then y else m) x it in
  r ∈ x :: it ∧ ∀ y, y ∈ x :: it → r ≤ y.
Proof.
  revert x. induction it as [|a it IH]; intros x; simpl.
  - split; [by left|]. intros y ->%list_elem_of_singleton. lia.
  - destruct (IH (if decide (a < x) then a else x)) as [Hin Hle].
    split.
    + apply elem_of_cons in Hin as [->|Hin].
      * destruct (decide (a < x)); [right; by left|by left].
      * right. by right.
    + intros y Hy.
      assert (Hm : foldl (λ m y, if decide (y < m) then y else m)
                     (if decide (a < x) then a else x) it
                   ≤ (if decide (a < x) then a else x)) by (apply Hle; by left).
      apply elem_of_cons in Hy as [->|Hy].
      * destruct (decide (a < x)); lia.
      * apply elem_of_cons in Hy as [->|Hy].
        -- destruct (decide (a < x)); lia.
        -- apply Hle. by right.
Qed.

Lemma foldl_max_greatest (x : Z) (it : list Z) :
  let r := foldl (λ m y, if decide (m < y) then y else m) x it in
  r ∈ x :: it ∧ ∀ y, y ∈ x :: it → y ≤ r.
Proof.
  revert x. induction it as [|a it IH]; intros x; simpl.
  - split; [by left|]. intros y ->%list_elem_of_singleton. lia.
  - destruct (IH (if decide (x < a) then a else x)) as [Hin Hle].
    split.
    + apply elem_of_cons in Hin as [->|Hin].
      * destruct (decide (x < a)); [right; by left|by left].
      * right. by right.
    + intros y Hy.
      assert (Hm : (if decide (x < a) then a else x)
                   ≤ foldl (λ m y, if decide (m < y) then y else m)
                       (if decide (x < a) then a else x) it)
        by (apply Hle; by left).
      apply elem_of_cons in Hy as [->|Hy].
      * destruct (decide (x < a)); lia.
      * apply elem_of_cons in Hy as [->|Hy].
        -- destruct (decide (x < a)); lia.
        -- apply Hle. by right.
Qed.

Lemma foldr_min_least (x : Z) (xs : list Z) :
  fold_right Z.min x xs ∈ x :: xs ∧ ∀ y, y ∈ x :: xs → fold_right Z.min x xs ≤ y.
Proof.
  induction xs as [|a xs [Hin Hle]]; simpl.
  - split; [by left|]. intros y ->%list_elem_of_singleton. lia.
  - split.
    + destruct (Z.min_spec a (fold_right Z.min x xs)) as [[_ ->]|[_ ->]].
      * right. by left.
      * apply elem_of_cons in Hin as [->|Hin]; [by left|right; by right].
    + intros y Hy. pose proof (Hle x (ltac:(by left))).
      apply elem_of_cons in Hy as [->|Hy]; [lia|].
      apply elem_of_cons in Hy as [->|Hy]; [lia|].
      pose proof (Hle y (ltac:(by right))). lia.
Qed.

Lemma foldr_max_greatest (x : Z) (xs : list Z) :
  fold_right Z.max x xs ∈ x :: xs ∧ ∀ y, y ∈ x :: xs → y ≤ fold_right Z.max x xs.
Proof.
  induction xs as [|a xs [Hin Hle]]; simpl.
  - split; [by left|]. intros y ->%list_elem_of_singleton. lia.
  - split.
    + destruct (Z.max_spec a (fold_right Z.max x xs)) as [[_ ->]|[_ ->]].
      * apply elem_of_cons in Hin as [->|Hin]; [by left|right; by right].
      * right. by left.
    + intros y Hy. pose proof (Hle x (ltac:(by left))).
      apply elem_of_cons in Hy as [->|Hy]; [lia|].
      apply elem_of_cons in Hy as [->|Hy]; [lia|].
      pose proof (Hle y (ltac:(by right))). lia.
Qed.

(** [min] over a collection depends on its members only. *)
Lemma py_min_members (l l' : list Z) :
  (∀ x, x ∈ l ↔ x ∈ l') → py_min l 0 = min_or_0 l'.
Proof.
  intros Hmem. destruct l as [|x l], l' as [|x' l']; simpl.
  - done.
  - exfalso. apply (not_elem_of_nil x'), Hmem. by left.
  - exfalso. apply (not_elem_of_nil x), Hmem. by left.
  - destruct (foldl_min_least x l) as [Hin Hle].
    destruct (foldr_min_least x' l') as [Hin' Hle'].
    apply Hmem in Hin. apply Hmem in Hin'.
    pose proof (Hle _ Hin'). pose proof (Hle' _ Hin). lia.
Qed.

Lemma py_max_members (l l' : list Z) :
  (∀ x, x ∈ l ↔ x ∈ l') → py_max l 0 = max_or_0 l'.
Proof.
  intros Hmem. destruct l as [|x l], l' as [|x' l']; simpl.
  - done.
  - exfalso. apply (not_elem_of_nil x'), Hmem. by left.
  - exfalso. apply (not_elem_of_nil x), Hmem. by left.
  - destruct (foldl_max_greatest x l) as [Hin Hle].
    destruct (foldr_max_greatest x' l') as [Hin' Hle'].
    apply Hmem in Hin. apply Hmem in Hin'.
    pose proof (Hle _ Hin'). pose proof (Hle' _ Hin). lia.
Qed.

(** The loop of [max]: with [best] the first maximum of what was seen, the
    result is the first maximum of the whole. *)
Lemma max_from_first_max {A : Type} (key : A → Z) (it pre0 post0 : list A)
    (best : A) :
  Forall (λ a, key a < key best) pre0 →
  Forall (λ a, key a ≤ key best) post0 →
  ∃ pre post,
    pre0 ++ best :: post0 ++ it = pre ++ max_from key best it :: post ∧
    Forall (λ a, key a < key (max_from key best it)) pre ∧
    Forall (λ a, key a ≤ key (max_from key best it)) post.
Proof.
  revert pre0 post0 best.
  induction it as [|a it IH]; intros pre0 post0 best Hpre Hpost; simpl.
  - exists pre0, post0. by rewrite app_nil_r.
  - destruct (decide (key best < key a)) as [Hlt|Hge].
    + destruct (IH (pre0 ++ best :: post0) [] a) as (pre & post & E & ? & ?).
      * rewrite Forall_app, Forall_cons. split_and!; [|done|].
        -- eapply Forall_impl; [exact Hpre|]. simpl. intros. lia.
        -- eapply Forall_impl; [exact Hpost|]. simpl. intros. lia.
      * constructor.
      * exists pre, post. split; [|done]. rewrite <- E.
        by rewrite <- !app_assoc.
    + destruct (IH pre0 (post0 ++ [a]) best) as (pre & post & E & ? & ?).
      * done.
      * rewrite Forall_app, Forall_singleton. split; [done|lia].
      * exists pre, post. split; [|done]. rewrite <- E.
        by rewrite <- !app_assoc.
Qed.

(** ** Instance parts: leader and bounding box *)

Lemma filter_none {B : Type} (P : B → Prop) `{∀ x, Decision (P x)}
    (l : list B) :
  (∀ x, x ∈ l → ¬ P x) → filter P l = [].
Proof.
  intros Hno. destruct (filter P l) as [|x l'] eqn:E; [done|].
  assert (x ∈ filter P l) as Hx by (rewrite E; by left).
  apply list_elem_of_filter in Hx as [HP Hx]. by apply Hno in Hx.
Qed.

Section PartsProps.
Context {Raster : Type} `{!Externals Raster}.
Variable self : TfDetectionApiConverter.
Implicit Types (a : Annotation Raster) (grp : list (Annotation Raster)).

Lemma elem_of_group_anns a grp :
  a ∈ group_anns grp ↔ a ∈ _find_instance_anns grp.
Proof.
  unfold group_anns, _find_instance_anns.
  rewrite elem_of_app, !list_elem_of_filter, !elem_of_cons, elem_of_nil.
  tauto.
Qed.

Lemma group_anns_nil grp : group_anns grp = [] ↔ _find_instance_anns grp = [].
Proof.
  split; intros E.
  - destruct (_find_instance_anns grp) as [|a l] eqn:E'; [done|].
    assert (a ∈ group_anns grp) as Ha
      by (apply elem_of_group_anns; rewrite E'; by left).
    rewrite E in Ha. by apply not_elem_of_nil in Ha.
  - destruct (group_anns grp) as [|a l] eqn:E'; [done|].
    assert (a ∈ _find_instance_anns grp) as Ha
      by (apply elem_of_group_anns; rewrite E'; by left).
    rewrite E in Ha. by apply not_elem_of_nil in Ha.
Qed.

Lemma find_instance_parts_nil grp w h :
  group_anns grp = [] → _find_instance_parts self grp w h = Raise ValueError.
Proof. intros E. unfold _find_instance_parts. by rewrite E. Qed.

Lemma find_instance_parts_cons grp w h a l :
  group_anns grp = a :: l →
  _find_instance_parts self grp w h =
    Ok (max_from get_area a l,
        if _save_masks self then
          merge_masks
            (map mask_image (filter (λ a, type a = AnnotationType.mask) grp))
        else None,
        _compute_bbox (group_anns grp)).
Proof. intros E. unfold _find_instance_parts. by rewrite E. Qed.

(** C2: for a group with a box or a mask the leader has the greatest
    area, and among the members of greatest area it is the first one in the
    order [boxes + masks]: the boxes of the group in their order, then its
    masks in their order. *)
Theorem leader_is_first_max_of_boxes_then_masks grp w h :
  group_anns grp ≠ [] →
  ∃ leader mask box pre post,
    _find_instance_parts self grp w h = Ok (leader, mask, box) ∧
    group_anns grp = pre ++ leader :: post ∧
    Forall (λ a, get_area a < get_area leader) pre ∧
    Forall (λ a, get_area a ≤ get_area leader) post.
Proof.
  intros Hne. destruct (group_anns grp) as [|a l] eqn:E; [done|].
  destruct (max_from_first_max get_area l [] [] a) as (pre & post & Hd & ? & ?);
    [constructor..|].
  eexists _, _, _, pre, post. split; [by apply find_instance_parts_cons|].
  done.
Qed.

(** C3: for a group without boxes, the box of a group without masks too is
    [(0, 0, 0, 0)], and no instance is made of it ([max] raises on the empty
    sequence); a group with masks gets the union box of its masks. *)
Theorem bbox_of_group_without_boxes grp w h :
  (∀ a, a ∈ grp → type a ≠ AnnotationType.bbox) →
  let masks := filter (λ a, type a = AnnotationType.mask) grp in
  (masks = [] →
     _compute_bbox (group_anns grp) = (0, 0, 0, 0) ∧
     _find_instance_parts self grp w h = Raise ValueError) ∧
  (masks ≠ [] →
     ∃ leader mask,
       _find_instance_parts self grp w h =
         Ok (leader, mask, _compute_bbox masks)).
Proof.
  intros Hnobox masks.
  assert (group_anns grp = masks) as E.
  { unfold group_anns. fold masks.
    assert (filter (λ a, type a = AnnotationType.bbox) grp = []) as ->; [|done].
    apply filter_none. intros a Ha. by apply Hnobox. }
  split.
  - intros Hm. rewrite E, Hm. split; [done|].
    apply find_instance_parts_nil. by rewrite E.
  - intros Hm. rewrite <- E in Hm |- *.
    destruct (group_anns grp) as [|a l] eqn:Eg; [done|].
    eexists _, _. rewrite (find_instance_parts_cons _ w h _ _ Eg).
    by rewrite Eg.
Qed.

Lemma map_members {B C : Type} (f : B → C) (l l' : list B) :
  (∀ x, x ∈ l ↔ x ∈ l') → ∀ y, y ∈ map f l ↔ y ∈ map f l'.
Proof.
  intros Hmem y. change (y ∈ f <$> l ↔ y ∈ f <$> l').
  rewrite !list_elem_of_fmap. by setoid_rewrite Hmem.
Qed.

Lemma compute_bbox_union grp :
  _compute_bbox (group_anns grp) = union_bbox (_find_instance_anns grp).
Proof.
  unfold _compute_bbox, union_bbox. rewrite !map_map.
  pose proof (λ a, elem_of_group_anns a grp) as Hmem.
  rewrite !(py_min_members _ _ (map_members _ _ _ Hmem)).
  by rewrite !(py_max_members _ _ (map_members _ _ _ Hmem)).
Qed.

(** C9: the box of an instance is [(x0, y0, x1 - x0, y1 - y0)] with [x0]
    and [y0] the least left and top edges and [x1] and [y1] the greatest
    right and bottom edges over the bounding rectangles of the boxes and
    masks of the group, each 0 over an empty collection; the grouping fails
    only for a group without boxes and masks. *)
Theorem instance_bbox_is_union_of_members grp w h :
  _compute_bbox (group_anns grp) = union_bbox (_find_instance_anns grp) ∧
  match _find_instance_parts self grp w h with
  | Ok (_, _, box) =>
      _find_instance_anns grp ≠ [] ∧ box = union_bbox (_find_instance_anns grp)
  | Raise _ => _find_instance_anns grp = []
  end.
Proof.
  split; [apply compute_bbox_union|].
  destruct (group_anns grp) as [|a l] eqn:E.
  - rewrite (find_instance_parts_nil _ w h E). by apply group_anns_nil.
  - rewrite (find_instance_parts_cons _ w h _ _ E). split.
    + rewrite <- group_anns_nil, E. done.
    + apply compute_bbox_union.
Qed.

End PartsProps.

(** C2, on [mask_then_box]: the box leads, the mask before it in the group
    has the same area. *)
Lemma leader_is_first_max_of_boxes_then_masks_witness :
  group_anns mask_then_box ≠ [] ∧
  ∃ leader mask box pre post,
    _find_instance_parts (plain_converter false false []) mask_then_box 100 50
      = Ok (leader, mask, box) ∧
    group_anns mask_then_box = pre ++ leader :: post ∧
    Forall (λ a, get_area a < get_area leader) pre ∧
    Forall (λ a, get_area a ≤ get_area leader) post.
Proof.
  split; [discriminate|].
  apply (leader_is_first_max_of_boxes_then_masks
           (plain_converter false false []) mask_then_box 100 50).
  discriminate.
Defined.

(** C2 as stated fails: in [mask_then_box] the mask and the box have the
    same area and the mask comes first, yet the box is the leader. *)
Lemma leader_not_first_in_group_order :
  ¬ (∀ (grp : list (Annotation unit)) leader mask box,
       _find_instance_parts (plain_converter false false []) grp 100 50
         = Ok (leader, mask, box) →
       ∃ pre post,
         grp = pre ++ leader :: post ∧
         Forall (λ a, get_area a < get_area leader) pre).
Proof.
  intros H.
  destruct (H mask_then_box (box_ann (Some 1) None 5 (0, 0, 5, 1)) None
              (0, 0, 5, 6) eq_refl) as (pre & post & E & Hpre).
  destruct pre as [|a pre]; [discriminate|].
  injection E as <- E. apply Forall_cons in Hpre as [Hlt _].
  simpl in Hlt. lia.
Qed.

(** C3, on [lone_mask]. *)
Lemma bbox_of_group_without_boxes_witness :
  (∀ a, a ∈ lone_mask → type a ≠ AnnotationType.bbox) ∧
  ∃ leader mask,
    _find_instance_parts (plain_converter false false []) lone_mask 100 50 =
      Ok (leader, mask, (1, 2, 3, 4)).
Proof.
  assert (Hk : ∀ a, a ∈ lone_mask → type a ≠ AnnotationType.bbox).
  { intros a ->%list_elem_of_singleton. discriminate. }
  split; [exact Hk|].
  apply (bbox_of_group_without_boxes
           (plain_converter false false []) lone_mask 100 50 Hk).
  discriminate.
Defined.

(** C3 as stated fails: [lone_mask] has no box, and its instance box is
    the rectangle of its mask. *)
Lemma mask_only_group_bbox_is_not_zero :
  ¬ (∀ (grp : list (Annotation unit)) leader mask box,
       (∀ a, a ∈ grp → type a ≠ AnnotationType.bbox) →
       _find_instance_parts (plain_converter false false []) grp 100 50
         = Ok (leader, mask, box) →
       box = (0, 0, 0, 0)).
Proof.
  intros H.
  specialize (H lone_mask (mask_ann (Some 1) None 12 (1, 2, 3, 4)) None
                (1, 2, 3, 4)).
  discriminate H; [|reflexivity].
  intros a ->%list_elem_of_singleton. discriminate.
Qed.

(** ** The export loop *)

Ltac bind_ok H :=
  repeat match type of H with
  | context [match ?m with Ok _ => _ | Raise _ => _ end] =>
      destruct m eqn:?; simpl in H; [|discriminate H]
  end.

Section ExportProps.
Context {Raster : Type} `{!Externals Raster}.
Variable self : TfDetectionApiConverter.
Variables width height : Z.
Implicit Types (inst : Instance_ Raster) (instances : list (Instance_ Raster)).

(** What one pass of the loop appends, list by list. *)
Lemma export_loop instances acc acc' :
  for_each (export_instance self width height) acc instances = Ok acc' →
  ∃ xmn xmx ymn ymx txt ids msk,
    xmins acc' = xmins acc ++ xmn ∧ xmaxs acc' = xmaxs acc ++ xmx ∧
    ymins acc' = ymins acc ++ ymn ∧ ymaxs acc' = ymaxs acc ++ ymx ∧
    classes_text acc' = classes_text acc ++ txt ∧
    classes acc' = classes acc ++ ids ∧
    masks acc' = masks acc ++ (if _save_masks self then msk else []) ∧
    Forall2 (λ inst q, truediv (b0 inst.2) width = Ok q) instances xmn ∧
    Forall2 (λ inst q, truediv (b0 inst.2 + b2 inst.2) width = Ok q)
            instances xmx ∧
    Forall2 (λ inst q, truediv (b1 inst.2) height = Ok q) instances ymn ∧
    Forall2 (λ inst q, truediv (b1 inst.2 + b3 inst.2) height = Ok q)
            instances ymx ∧
    Forall2 (λ inst t, ∃ name, _get_label self (label inst.1.1) = Ok name ∧
                               t = encode_utf8 (_make_printable name))
            instances txt ∧
    Forall2 (λ inst i, _get_label_id self (label inst.1.1) = Ok i)
            instances ids ∧
    Forall2 (λ inst m, m = match inst.1.2 with
                           | Some r => encode_image r (lit ".png")
                           | None => []
                           end) instances msk.
Proof.
  revert acc acc'.
  induction instances as [|[[leader mask] box] instances IH];
    intros acc acc' Hrun.
  - injection Hrun as <-. exists [], [], [], [], [], [], [].
    rewrite !app_nil_r. destruct (_save_masks self); rewrite ?app_nil_r;
      by repeat split.
  - change (export_instance self width height acc (leader, mask, box)
            ≫= (λ s', for_each (export_instance self width height) s'
                        instances) = Ok acc') in Hrun.
    unfold mbind, result_bind in Hrun.
    destruct (export_instance self width height acc (leader, mask, box))
      as [acc1|] eqn:Hstep; simpl in Hrun; [|discriminate].
    apply IH in Hrun
      as (xmn & xmx & ymn & ymx & txt & ids & msk & E1 & E2 & E3 & E4 & E5 &
          E6 & E7 & F1 & F2 & F3 & F4 & F5 & F6 & F7).
    unfold export_instance, mbind, result_bind in Hstep.
    bind_ok Hstep. injection Hstep as <-. simpl in *.
    eexists (_ :: xmn), (_ :: xmx), (_ :: ymn), (_ :: ymx), (_ :: txt),
      (_ :: ids), (_ :: msk).
    rewrite E1, E2, E3, E4, E5, E6, E7, <- !app_assoc. simpl.
    split_and!; try done; try (constructor; [|done]; simpl; eauto).
    destruct (_save_masks self); [by rewrite <- app_assoc|done].
Qed.

End ExportProps.

Section ExportResult.
Context {Raster : Type} `{!Externals Raster}.
Variable self : TfDetectionApiConverter.
Variables width height : Z.
Implicit Types (inst : Instance_ Raster) (instances : list (Instance_ Raster)).

Lemma Forall2_nil_iff {B C : Type} (R : B → C → Prop) (l : list B)
    (k : list C) :
  Forall2 R l k → (k = [] ↔ l = []).
Proof. intros HF. destruct HF; split; congruence. Qed.

(** The feature mapping of the instances, key by key. *)
Lemma export_instances_spec instances result :
  _export_instances self instances width height = Ok result →
  ∃ xmn xmx ymn ymx txt ids msk,
    Forall2 (λ inst q, truediv (b0 inst.2) width = Ok q) instances xmn ∧
    Forall2 (λ inst q, truediv (b0 inst.2 + b2 inst.2) width = Ok q)
            instances xmx ∧
    Forall2 (λ inst q, truediv (b1 inst.2) height = Ok q) instances ymn ∧
    Forall2 (λ inst q, truediv (b1 inst.2 + b3 inst.2) height = Ok q)
            instances ymx ∧
    Forall2 (λ inst t, ∃ name, _get_label self (label inst.1.1) = Ok name ∧
                               t = encode_utf8 (_make_printable name))
            instances txt ∧
    Forall2 (λ inst i, _get_label_id self (label inst.1.1) = Ok i)
            instances ids ∧
    Forall2 (λ inst m, m = match inst.1.2 with
                           | Some r => encode_image r (lit ".png")
                           | None => []
                           end) instances msk ∧
    (instances = [] → result = ∅) ∧
    (instances ≠ [] →
       result !! "image/object/bbox/xmin" = Some (float_list xmn) ∧
       result !! "image/object/bbox/xmax" = Some (float_list xmx) ∧
       result !! "image/object/bbox/ymin" = Some (float_list ymn) ∧
       result !! "image/object/bbox/ymax" = Some (float_list ymx) ∧
       result !! "image/object/class/text" = Some (bytes_list txt) ∧
       result !! "image/object/class/label" = Some (int64_list ids) ∧
       result !! "image/object/mask" =
         if _save_masks self then Some (bytes_list msk) else None).
Proof.
  unfold _export_instances. intros Hres.
  unfold mbind at 1, result_bind at 1 in Hres.
  destruct (for_each _ _ instances) as [acc|] eqn:Hloop; [|discriminate].
  apply export_loop in Hloop
    as (xmn & xmx & ymn & ymx & txt & ids & msk & E1 & E2 & E3 & E4 & E5 &
        E6 & E7 & F1 & F2 & F3 & F4 & F5 & F6 & F7).
  simpl in E1, E2, E3, E4, E5, E6, E7.
  injection Hres as <-. rewrite E1, E2, E3, E4, E5, E6, E7.
  exists xmn, xmx, ymn, ymx, txt, ids, msk. split_and!; try done.
  - intros ->. apply Forall2_nil_inv_l in F6 as ->. by rewrite decide_True.
  - intros Hne.
    assert (ids ≠ []) as Hids by (by rewrite (Forall2_nil_iff _ _ _ F6)).
    assert (msk ≠ []) as Hmsk by (by rewrite (Forall2_nil_iff _ _ _ F7)).
    rewrite (decide_False (P := ids = [])) by done.
    unfold float_list_feature, bytes_list_feature, int64_list_feature.
    destruct (_save_masks self).
    + rewrite (decide_False (P := msk = [])) by done.
      split_and!; by simplify_map_eq.
    + rewrite (decide_True (P := [] = [])) by done.
      split_and!; by simplify_map_eq.
Qed.

(** C10: the lists emitted for a non-empty list of instances are parallel:
    the four coordinate lists, the class texts and the class labels have one
    entry per instance; with mask export on, so has the mask list, with the
    empty byte string for an instance without a mask; with mask export off
    no mask list is emitted. *)
Theorem exported_lists_are_parallel instances result :
  _export_instances self instances width height = Ok result →
  (instances = [] → result = ∅) ∧
  (instances ≠ [] →
   ∃ xmn xmx ymn ymx txt ids,
    result !! "image/object/bbox/xmin" = Some (float_list xmn) ∧
    result !! "image/object/bbox/xmax" = Some (float_list xmx) ∧
    result !! "image/object/bbox/ymin" = Some (float_list ymn) ∧
    result !! "image/object/bbox/ymax" = Some (float_list ymx) ∧
    result !! "image/object/class/text" = Some (bytes_list txt) ∧
    result !! "image/object/class/label" = Some (int64_list ids) ∧
    length xmn = length instances ∧ length xmx = length instances ∧
    length ymn = length instances ∧ length ymx = length instances ∧
    length txt = length instances ∧ length ids = length instances ∧
    if _save_masks self then
      ∃ msk, result !! "image/object/mask" = Some (bytes_list msk) ∧
             length msk = length instances ∧
             ∀ i leader box, instances !! i = Some (leader, None, box) →
                             msk !! i = Some []
    else result !! "image/object/mask" = None).
Proof.
  intros Hres.
  apply export_instances_spec in Hres
    as (xmn & xmx & ymn & ymx & txt & ids & msk & F1 & F2 & F3 & F4 & F5 &
        F6 & F7 & Hnil & Hkeys).
  split; [done|]. intros Hne.
  destruct (Hkeys Hne) as (K1 & K2 & K3 & K4 & K5 & K6 & K7).
  exists xmn, xmx, ymn, ymx, txt, ids.
  split_and!; try done; try (symmetry; by eapply Forall2_length).
  destruct (_save_masks self); [|done].
  exists msk. split_and!; [done|symmetry; by eapply Forall2_length|].
  intros i leader box Hi.
  destruct (Forall2_lookup_l _ _ _ _ _ F7 Hi) as (m & Hm & ->). done.
Qed.

End ExportResult.

(** ** The printable filter *)

Lemma char_eq (c1 c2 : char) : code c1 = code c2 → c1 = c2.
Proof.
  destruct c1 as [n1 H1], c2 as [n2 H2]. simpl. intros ->.
  f_equal. apply proof_irrel.
Qed.

Lemma printable_codes (n : N) :
  n ∈ map code printable ↔ (32 ≤ n ≤ 126 ∨ 9 ≤ n ≤ 13)%N.
Proof.
  split.
  - revert n. apply Forall_forall.
    refine (bool_decide_unpack _ _). by vm_compute.
  - intros Hn.
    assert (Forall (λ k, (32 ≤ N.of_nat k ≤ 126 ∨ 9 ≤ N.of_nat k ≤ 13)%N →
                         N.of_nat k ∈ map code printable) (seq 0 127)) as HF
      by (refine (bool_decide_unpack _ _); by vm_compute).
    rewrite Forall_forall in HF.
    rewrite <- (N2Nat.id n) in Hn |- *. apply HF; [|done].
    apply elem_of_seq. lia.
Qed.

(** [x in _printable] is membership in the printable ASCII characters. *)
Lemma elem_of_printable (c : char) : c ∈ _printable ↔ printable_ascii c.
Proof.
  unfold _printable, printable_ascii.
  rewrite elem_of_list_to_set, <- printable_codes.
  change (c ∈ printable ↔ code c ∈ code <$> printable).
  rewrite list_elem_of_fmap. split.
  - intros Hc. by exists c.
  - intros (c' & Hcode & Hc'). by rewrite (char_eq c c' Hcode).
Qed.

Lemma make_printable_filter (s : pystr) :
  _make_printable s = filter printable_ascii s.
Proof. apply list_filter_iff, elem_of_printable. Qed.

Lemma encode_utf8_ascii (s : pystr) :
  Forall (λ c, (code c < 128)%N) s → encode_utf8 s = ascii_bytes s.
Proof.
  unfold encode_utf8, ascii_bytes.
  induction 1 as [|c s Hc _ IH]; [done|].
  rewrite bind_cons, IH. unfold utf8_char.
  apply N.ltb_lt in Hc. by rewrite Hc.
Qed.

(** The class text of a name: its printable ASCII characters, one byte
    each. *)
Lemma printable_text_bytes (s : pystr) :
  encode_utf8 (_make_printable s) = ascii_bytes (filter printable_ascii s).
Proof.
  rewrite make_printable_filter. apply encode_utf8_ascii.
  apply Forall_forall. intros c [Hc _]%list_elem_of_filter.
  unfold printable_ascii in Hc. lia.
Qed.

Section ClassText.
Context {Raster : Type} `{!Externals Raster}.
Variable self : TfDetectionApiConverter.
Variables width height : Z.
Implicit Types (inst : Instance_ Raster) (instances : list (Instance_ Raster)).

(** C6: the class text stored for an instance is the name of its leader's
    label with exactly the characters outside [string.printable] dropped,
    that is the characters other than the codes 32 to 126 and the
    whitespace controls 9 to 13, and each remaining character as its one
    byte of UTF-8. *)
Theorem class_text_is_printable_part instances names result :
  _export_instances self instances width height = Ok result →
  Forall2 (λ inst name, _get_label self (label inst.1.1) = Ok name)
          instances names →
  instances ≠ [] →
  result !! "image/object/class/text" =
    Some (bytes_list
            (map (λ name, ascii_bytes (filter printable_ascii name)) names)) ∧
  ∀ name, encode_utf8 (_make_printable name)
          = ascii_bytes (filter printable_ascii name).
Proof.
  intros Hres Hnames Hne.
  apply export_instances_spec in Hres
    as (xmn & xmx & ymn & ymx & txt & ids & msk & _ & _ & _ & _ & F5 &
        _ & _ & _ & Hkeys).
  destruct (Hkeys Hne) as (_ & _ & _ & _ & K5 & _).
  split; [|apply printable_text_bytes].
  rewrite K5. do 2 f_equal.
  clear -F5 Hnames. revert txt F5.
  induction Hnames as [|inst name instances names Hname _ IH];
    intros txt F5.
  - by apply Forall2_nil_inv_l in F5 as ->.
  - apply Forall2_cons_inv_l in F5 as (t & txt' & (name' & Hn & ->) & F5 & ->).
    simpl. rewrite (IH _ F5). f_equal.
    rewrite Hname in Hn. injection Hn as <-. apply printable_text_bytes.
Qed.

End ClassText.

Ltac eval_lhs :=
  lazymatch goal with
  | |- ?lhs = _ =>
      let v := eval vm_compute in lhs in exact (eq_refl v <: lhs = v)
  end.

Lemma cafe_export :
  ∃ result,
    _export_instances (plain_converter false false [cafe]) cafe_instances
      100 50 = Ok result.
Proof. eexists. eval_lhs. Qed.

(** C6, on the name [café]: the class text is the three bytes of [caf]. *)
Lemma class_text_is_printable_part_witness :
  ∃ result,
    _export_instances (plain_converter false false [cafe]) cafe_instances
      100 50 = Ok result ∧
    result !! "image/object/class/text" =
      Some (bytes_list [ascii_bytes (lit "caf")]).
Proof.
  destruct cafe_export as [result Hres]. exists result. split; [exact Hres|].
  destruct (class_text_is_printable_part
              (plain_converter false false [cafe]) 100 50 cafe_instances
              [cafe] result Hres) as [Htext _].
  - repeat constructor.
  - discriminate.
  - rewrite Htext. reflexivity.
Defined.

Lemma tabbed_export :
  ∃ result,
    _export_instances (plain_converter false false [tabbed]) cafe_instances
      100 50 = Ok result ∧
    result !! "image/object/class/text" =
      Some (bytes_list [[Byte.x61; Byte.x09; Byte.x62]]).
Proof. eexists. split; [eval_lhs|]. vm_compute. reflexivity. Qed.

(** C6 as stated fails: the TAB of the name [tabbed] is outside the
    printable ASCII characters, codes 32 to 126, and the class text keeps
    it: the bytes are those of [a], TAB and [b]. *)
Lemma tab_is_kept_in_class_text :
  ¬ (∀ (instances : list (Instance_ unit)) names result,
       _export_instances (plain_converter false false [tabbed]) instances
         100 50 = Ok result →
       Forall2 (λ inst name,
                  _get_label (plain_converter false false [tabbed])
                    (label inst.1.1) = Ok name)
               instances names →
       instances ≠ [] →
       result !! "image/object/class/text" =
         Some (bytes_list
                 (map (λ name, ascii_bytes (filter graphic_ascii name))
                      names))).
Proof.
  intros Hclaim. destruct tabbed_export as (result & Hres & Htext).
  specialize (Hclaim cafe_instances [tabbed] result Hres).
  rewrite Htext in Hclaim.
  assert (Some (bytes_list [[Byte.x61; Byte.x09; Byte.x62]]) =
          Some (bytes_list [[Byte.x61; Byte.x62]])) as Hbytes.
  { apply Hclaim; [repeat constructor|discriminate]. }
  discriminate Hbytes.
Qed.

(** ** One item *)

Lemma unit_quotient (a b : Z) (q : Q) :
  0 ≤ a ≤ b → 0 < b → truediv a b = Ok q → (0 <= q <= 1)%Q.
Proof.
  intros [Ha Hab] Hb. unfold truediv. rewrite decide_False by lia.
  intros [= <-]. destruct b as [|p|p]; [lia| |lia].
  unfold Qle, Qdiv, Qmult, Qinv, inject_Z. simpl. lia.
Qed.


Lemma mapM_result_cons {B C : Type} (f : B → result C) (x : B) (l : list B) :
  mapM f (x :: l) =
  match f x with
  | Ok y => match mapM f l with Ok k => Ok (y :: k) | Raise e => Raise e end
  | Raise e => Raise e
  end.
Proof. reflexivity. Qed.

Lemma mapM_result_Forall2 {B C : Type} (f : B → result C) (l : list B)
    (k : list C) :
  mapM f l = Ok k → Forall2 (λ x y, f x = Ok y) l k.
Proof.
  revert k. induction l as [|x l IH]; intros k.
  - intros [= <-]. constructor.
  - rewrite mapM_result_cons. destruct (f x) as [y|] eqn:Hx; [|done].
    destruct (mapM f l) as [k'|]; [|done]. intros [= <-].
    constructor; [done|by apply IH].
Qed.

Lemma mapM_result_ok {B C : Type} (f : B → result C) (l : list B) :
  Forall (λ x, ∃ y, f x = Ok y) l → ∃ k, mapM f l = Ok k.
Proof.
  induction 1 as [|x l [y Hy] _ [k Hk]]; [by eexists|].
  rewrite mapM_result_cons, Hy, Hk. by eexists.
Qed.

Lemma py_min_elem (x : Z) (l : list Z) (d : Z) : py_min (x :: l) d ∈ x :: l.
Proof. apply foldl_min_least. Qed.

Lemma py_max_elem (x : Z) (l : list Z) (d : Z) : py_max (x :: l) d ∈ x :: l.
Proof. apply foldl_max_greatest. Qed.

Section ItemProps.
Context {Raster : Type} `{!Externals Raster}.
Variable self : TfDetectionApiConverter.
Implicit Types (a : Annotation Raster) (item : DatasetItem Raster).

(** The steps behind an example that was made. *)
Lemma make_tf_example_inv item w0 ex w' :
  _make_tf_example self item w0 = (Ok ex, w') →
  ∃ img instances exported features,
    image item = Some img ∧
    mapM (λ i, _find_instance_parts self i (size img).2 (size img).1)
         (_find_instances (annotations item)) = Ok instances ∧
    _export_instances self instances (size img).2 (size img).1 = Ok exported ∧
    ex = exported ∪ features ∧
    ∀ key, features !! key = None ∨
           key ∈ [ "image/source_id"; "image/filename"; "image/height";
                   "image/width"; "image/encoded"; "image/format" ].
Proof.
  unfold _make_tf_example. destruct (image item) as [img|]; [|done].
  destruct (size img) as [h w] eqn:Hsize. simpl.
  unfold mbind, M_bind, lift, mret, M_ret, emit.
  intros Hrun.
  match type of Hrun with
  | context [mapM ?f ?l] => destruct (mapM f l) as [instances|] eqn:Hparts
  end.
  2:{ destruct (_save_images self); [destruct (data img)|]; done. }
  destruct (_export_instances self instances w h) as [exported|] eqn:Hexp.
  2:{ destruct (_save_images self); [destruct (data img)|]; done. }
  exists img, instances, exported. rewrite Hsize. simpl.
  destruct (_save_images self); [destruct (data img)|];
    injection Hrun as <- <-; eexists; split_and!; try done;
    intros key;
    repeat (rewrite lookup_union_None || rewrite lookup_insert_None
            || rewrite !elem_of_cons);
    rewrite lookup_empty;
    destruct (decide (key = "image/source_id")); auto;
    destruct (decide (key = "image/filename")); auto;
    destruct (decide (key = "image/height")); auto;
    destruct (decide (key = "image/width")); auto;
    destruct (decide (key = "image/encoded")); auto;
    destruct (decide (key = "image/format")); auto 10;
    left; by split_and!.
Qed.

End ItemProps.

(** ** Normalised coordinates *)

Section Normalised.
Context {Raster : Type} `{!Externals Raster}.
Variable self : TfDetectionApiConverter.
Implicit Types (a : Annotation Raster) (item : DatasetItem Raster).

Lemma compute_bbox_within (anns : list (Annotation Raster)) (W H : Z) :
  anns ≠ [] →
  Forall (λ a, inside_image W H (get_bbox a) ∧ proper_rect (get_bbox a)) anns →
  let box := _compute_bbox anns in
  0 ≤ b0 box ≤ W ∧ 0 ≤ b0 box + b2 box ≤ W ∧
  0 ≤ b1 box ≤ H ∧ 0 ≤ b1 box + b3 box ≤ H.
Proof.
  intros Hne Hin. destruct anns as [|a0 l]; [done|]. clear Hne.
  rewrite Forall_forall in Hin.
  assert (Hpick : ∀ (f : Rect → Z) (v : Z),
            v ∈ map f (map get_bbox (a0 :: l)) →
            ∃ a, v = f (get_bbox a) ∧
                 inside_image W H (get_bbox a) ∧ proper_rect (get_bbox a)).
  { intros f v Hv. rewrite map_map in Hv.
    change (v ∈ (λ a, f (get_bbox a)) <$> a0 :: l) in Hv.
    apply list_elem_of_fmap in Hv as (a & -> & Ha). eauto. }
  unfold _compute_bbox. cbv zeta.
  set (boxes := map get_bbox (a0 :: l)).
  assert (py_min (map b0 boxes) 0 ∈ map b0 boxes) as Hx0
    by apply py_min_elem.
  assert (py_min (map b1 boxes) 0 ∈ map b1 boxes) as Hy0
    by apply py_min_elem.
  assert (py_max (map (λ b, b0 b + b2 b) boxes) 0
          ∈ map (λ b, b0 b + b2 b) boxes) as Hx1 by apply py_max_elem.
  assert (py_max (map (λ b, b1 b + b3 b) boxes) 0
          ∈ map (λ b, b1 b + b3 b) boxes) as Hy1 by apply py_max_elem.
  apply Hpick in Hx0 as (ax0 & Ex0 & Ix0 & Px0).
  apply Hpick in Hy0 as (ay0 & Ey0 & Iy0 & Py0).
  apply Hpick in Hx1 as (ax1 & Ex1 & Ix1 & Px1).
  apply Hpick in Hy1 as (ay1 & Ey1 & Iy1 & Py1).
  revert Ex0 Ey0 Ex1 Ey1.
  generalize (py_min (map b0 boxes) 0) (py_min (map b1 boxes) 0)
    (py_max (map (λ b, b0 b + b2 b) boxes) 0)
    (py_max (map (λ b, b1 b + b3 b) boxes) 0).
  intros x0 y0 x1 y1 -> -> -> ->.
  unfold inside_image, proper_rect, b0, b1, b2, b3 in *. simpl. lia.
Qed.

(** C7: for an item with positive width and height whose bbox and mask
    annotations have rectangles inside the image, of width and height not
    negative, every normalised coordinate that is emitted lies between 0
    and 1. *)
Theorem normalized_coordinates_in_unit_interval item img H W w0 ex w' :
  image item = Some img → size img = (H, W) → 0 < W → 0 < H →
  (∀ a, a ∈ annotations item →
        type a ∈ [AnnotationType.bbox; AnnotationType.mask] →
        inside_image W H (get_bbox a) ∧ proper_rect (get_bbox a)) →
  _make_tf_example self item w0 = (Ok ex, w') →
  ∀ key l, key ∈ bbox_keys → ex !! key = Some (float_list l) →
           Forall (λ q, (0 <= q <= 1)%Q) l.
Proof.
  intros Himg Hsize HW HH Hanns Hrun key l Hkey Hl.
  apply make_tf_example_inv in Hrun
    as (img' & instances & exported & features & Himg' & Hparts & Hexp & -> &
        Hfeat).
  rewrite Himg in Himg'. injection Himg' as <-. rewrite Hsize in *.
  simpl in Hparts, Hexp.
  assert (features !! key = None) as Hnone.
  { destruct (Hfeat key) as [|Hbad]; [done|]. exfalso.
    unfold bbox_keys in Hkey. rewrite !elem_of_cons in Hkey.
    rewrite !elem_of_cons in Hbad.
    destruct Hkey as [->|[->|[->|[->|Hk]]]];
      [| | | |by apply elem_of_nil in Hk];
      destruct Hbad as [?|[?|[?|[?|[?|[?|Hb]]]]]];
      first [discriminate|by apply elem_of_nil in Hb]. }
  rewrite (lookup_union_l _ _ _ Hnone) in Hl.
  apply mapM_result_Forall2 in Hparts.
  assert (Forall (λ inst : Instance_ Raster,
            0 ≤ b0 inst.2 ≤ W ∧ 0 ≤ b0 inst.2 + b2 inst.2 ≤ W ∧
            0 ≤ b1 inst.2 ≤ H ∧ 0 ≤ b1 inst.2 + b3 inst.2 ≤ H) instances)
    as Hboxes.
  { apply Forall_forall. intros inst Hinst.
    apply list_elem_of_lookup in Hinst as [i Hi].
    destruct (Forall2_lookup_r _ _ _ _ _ Hparts Hi) as (g & Hg & Hgi).
    apply list_elem_of_lookup_2 in Hg.
    destruct (group_anns g) as [|a0 rest] eqn:Eg.
    { by rewrite (find_instance_parts_nil _ _ _ _ Eg) in Hgi. }
    rewrite (find_instance_parts_cons _ _ _ _ _ _ Eg) in Hgi.
    injection Hgi as <-. simpl. rewrite Eg.
    apply compute_bbox_within; [done|].
    apply Forall_forall. intros a Ha. rewrite <- Eg in Ha.
    apply elem_of_group_anns in Ha.
    apply list_elem_of_filter in Ha as [Hty Ha].
    destruct (find_instances_kinds g a (annotations item) Hg Ha) as [? ?].
    by apply Hanns. }
  apply export_instances_spec in Hexp
    as (xmn & xmx & ymn & ymx & txt & ids & msk & F1 & F2 & F3 & F4 & _ & _ &
        _ & Hnil & Hkeys).
  destruct (decide (instances = [])) as [Hi|Hi].
  { rewrite (Hnil Hi), lookup_empty in Hl. done. }
  destruct (Hkeys Hi) as (K1 & K2 & K3 & K4 & _).
  assert (Hq : ∀ (f : Instance_ Raster → Z) (D : Z) (qs : list Q),
            0 < D → Forall (λ inst, 0 ≤ f inst ≤ D) instances →
            Forall2 (λ inst q, truediv (f inst) D = Ok q) instances qs →
            Forall (λ q, (0 <= q <= 1)%Q) qs).
  { intros f D qs HD Hf HF. apply Forall_forall. intros q Hq.
    apply list_elem_of_lookup in Hq as [i Hq].
    destruct (Forall2_lookup_r _ _ _ _ _ HF Hq) as (inst & Hinst & Hdiv).
    apply list_elem_of_lookup_2 in Hinst. rewrite Forall_forall in Hf.
    by apply (unit_quotient (f inst) D q (Hf _ Hinst)). }
  unfold bbox_keys in Hkey. rewrite !elem_of_cons in Hkey.
  destruct Hkey as [->|[->|[->|[->|Hk]]]]; [| | | |by apply elem_of_nil in Hk].
  - rewrite K1 in Hl. injection Hl as <-.
    apply (Hq (λ inst, b0 inst.2) W); [done| |done].
    eapply Forall_impl; [exact Hboxes|]. simpl. tauto.
  - rewrite K2 in Hl. injection Hl as <-.
    apply (Hq (λ inst, b0 inst.2 + b2 inst.2) W); [done| |done].
    eapply Forall_impl; [exact Hboxes|]. simpl. tauto.
  - rewrite K3 in Hl. injection Hl as <-.
    apply (Hq (λ inst, b1 inst.2) H); [done| |done].
    eapply Forall_impl; [exact Hboxes|]. simpl. tauto.
  - rewrite K4 in Hl. injection Hl as <-.
    apply (Hq (λ inst, b1 inst.2 + b3 inst.2) H); [done| |done].
    eapply Forall_impl; [exact Hboxes|]. simpl. tauto.
Qed.

End Normalised.

Lemma two_boxes_run :
  ∃ ex w',
    _make_tf_example (plain_converter false false [lit "cat"])
      two_boxes_item [] = (Ok ex, w') ∧
    ex !! "image/object/bbox/xmax" = Some (float_list [10 # 100; 50 # 100]%Q).
Proof. eexists _, _. split; [eval_lhs|]. vm_compute. reflexivity. Qed.

Lemma negative_width_run :
  ∃ ex w',
    _make_tf_example (plain_converter false false [])
      negative_width_item [] = (Ok ex, w') ∧
    ex !! "image/object/bbox/xmax" = Some (float_list [(-5) # 100]%Q).
Proof. eexists _, _. split; [eval_lhs|]. vm_compute. reflexivity. Qed.

(** C7, on [two_boxes_item]: a 100 by 50 image with the boxes
    [(0, 0, 10, 10)] and [(20, 20, 30, 10)]. *)
Lemma normalized_coordinates_in_unit_interval_witness :
  ∃ ex w',
    _make_tf_example (plain_converter false false [lit "cat"])
      two_boxes_item [] = (Ok ex, w') ∧
    ex !! "image/object/bbox/xmax" = Some (float_list [10 # 100; 50 # 100]%Q) ∧
    ∀ key l, key ∈ bbox_keys → ex !! key = Some (float_list l) →
             Forall (λ q, (0 <= q <= 1)%Q) l.
Proof.
  destruct two_boxes_run as (ex & w' & Hrun & Hxmax). exists ex, w'.
  split; [exact Hrun|]. split; [exact Hxmax|].
  apply (normalized_coordinates_in_unit_interval
           (plain_converter false false [lit "cat"]) two_boxes_item
           image_100x50 50 100 [] ex w');
    [reflexivity|reflexivity|lia|lia| |exact Hrun].
  intros a Ha _. unfold two_boxes_item in Ha. simpl in Ha.
  rewrite !elem_of_cons in Ha.
  destruct Ha as [->|[->|Ha]]; [| |by apply elem_of_nil in Ha];
    unfold inside_image, proper_rect; vm_compute; by repeat split.
Defined.

(** C7 as stated fails: the box [(5, 0, -10, 1)] of [negative_width_item]
    meets the four bounds of the claim in a 100 by 50 image, and its
    [xmax] is [-5/100]. *)
Lemma negative_width_box_leaves_unit_interval :
  ¬ (∀ (item : DatasetItem unit) img H W ex w',
       image item = Some img → size img = (H, W) → 0 < W → 0 < H →
       (∀ a, a ∈ annotations item →
             type a ∈ [AnnotationType.bbox; AnnotationType.mask] →
             inside_image W H (get_bbox a)) →
       _make_tf_example (plain_converter false false []) item []
         = (Ok ex, w') →
       ∀ key l, key ∈ bbox_keys → ex !! key = Some (float_list l) →
                Forall (λ q, (0 <= q <= 1)%Q) l).
Proof.
  intros Hclaim.
  destruct negative_width_run as (ex & w' & Hrun & Hxmax).
  assert (∀ a, a ∈ annotations negative_width_item →
               type a ∈ [AnnotationType.bbox; AnnotationType.mask] →
               inside_image 100 50 (get_bbox a)) as Hin.
  { intros a Ha _. unfold negative_width_item in Ha. simpl in Ha.
    apply list_elem_of_singleton in Ha as ->.
    unfold inside_image. vm_compute. by repeat split. }
  assert ("image/object/bbox/xmax" ∈ bbox_keys) as Hkey
    by (unfold bbox_keys; right; left).
  pose proof (Hclaim negative_width_item image_100x50 50 100 ex w'
                eq_refl eq_refl ltac:(lia) ltac:(lia) Hin Hrun
                _ _ Hkey Hxmax) as Hunit.
  apply Forall_singleton in Hunit as [Hneg _].
  unfold Qle in Hneg. simpl in Hneg. lia.
Qed.

(** ** Items that convert *)


Lemma py_index_ok {B : Type} (l : list B) (i : Z) :
  - Z.of_nat (length l) ≤ i < Z.of_nat (length l) → ∃ x, py_index l i = Ok x.
Proof.
  intros Hi. unfold py_index.
  set (j := if decide (i < 0) then i + Z.of_nat (length l) else i).
  assert (0 ≤ j < Z.of_nat (length l)) as Hj
    by (unfold j; destruct (decide (i < 0)); lia).
  rewrite decide_True by done.
  destruct (lookup_lt_is_Some_2 l (Z.to_nat j)) as [x Hx]; [lia|].
  rewrite Hx. eauto.
Qed.

(** A label reference that [get_label] resolves: no label, or an index into
    the catalog, counted from the front or, when negative, from the back. *)
Lemma get_label_ok (label_categories : LabelCategories) (label_id : option Z) :
  match label_id with
  | None => True
  | Some i => - Z.of_nat (length label_categories) ≤ i
              < Z.of_nat (length label_categories)
  end →
  ∃ name, get_label label_categories label_id = Ok name.
Proof.
  destruct label_id as [i|]; simpl; [apply py_index_ok|by eexists].
Qed.

Section Converts.
Context {Raster : Type} `{!Externals Raster}.
Variable self : TfDetectionApiConverter.
Implicit Types (a : Annotation Raster) (item : DatasetItem Raster).
Implicit Types (inst : Instance_ Raster) (instances : list (Instance_ Raster)).




End Converts.

Section ConvertsItem.
Context {Raster : Type} `{!Externals Raster}.
Implicit Types (a : Annotation Raster) (item : DatasetItem Raster).

(** The example made when the grouping and the export return. *)
Lemma make_tf_example_ok self item img H W w0 instances exported :
  image item = Some img → size img = (H, W) →
  mapM (λ i, _find_instance_parts self i W H)
       (_find_instances (annotations item)) = Ok instances →
  _export_instances self instances W H = Ok exported →
  ∃ features w',
    _make_tf_example self item w0 = (Ok (exported ∪ features), w') ∧
    ∀ key, features !! key = None ∨
           key ∈ [ "image/source_id"; "image/filename"; "image/height";
                   "image/width"; "image/encoded"; "image/format" ].
Proof.
  intros Himg Hsize Hparts Hexp.
  unfold _make_tf_example. rewrite Himg, Hsize.
  unfold mbind, M_bind, lift, mret, M_ret, emit.
  destruct (_save_images self); [destruct (data img)|];
    rewrite Hparts, Hexp; eexists _, _; (split; [reflexivity|]);
    intros key;
    repeat (rewrite lookup_union_None || rewrite lookup_insert_None
            || rewrite !elem_of_cons);
    rewrite lookup_empty;
    destruct (decide (key = "image/source_id")); auto;
    destruct (decide (key = "image/filename")); auto;
    destruct (decide (key = "image/height")); auto;
    destruct (decide (key = "image/width")); auto;
    destruct (decide (key = "image/encoded")); auto;
    destruct (decide (key = "image/format")); auto 10;
    left; by split_and!.
Qed.


End ConvertsItem.



(** ** The run over the subsets *)

Lemma for_M_cons {B : Type} (body : B → M unit) (x : B) (l : list B)
    (w : list Event) :
  for_M body (x :: l) w =
  match body x w with
  | (Ok _, w') => for_M body l w'
  | (Raise e, w') => (Raise e, w')
  end.
Proof. reflexivity. Qed.

(** A loop stops at the first element whose body raises, in the world that
    the body left. *)
Lemma for_M_raise {B : Type} (body : B → M unit) (pre post : list B) (x : B)
    (w w1 w2 : list Event) (e : exn) :
  for_M body pre w = (Ok tt, w1) →
  body x w1 = (Raise e, w2) →
  for_M body (pre ++ x :: post) w = (Raise e, w2).
Proof.
  revert w. induction pre as [|y pre IH]; intros w Hpre Hx.
  - injection Hpre as <-. by rewrite app_nil_l, for_M_cons, Hx.
  - rewrite <- app_comm_cons. rewrite for_M_cons in Hpre |- *.
    destruct (body y w) as [[[]|e'] w']; [by apply IH|done].
Qed.

Section RunProps.
Context {Raster : Type} `{!Externals Raster}.
Implicit Types (item : DatasetItem Raster) (extractor : Extractor Raster).

Lemma write_labelmap_ok (label_ids : list (pystr * Z)) (save_dir : pystr)
    (w : list Event) :
  (write_labelmap label_ids save_dir w).1 = Ok tt.
Proof.
  unfold write_labelmap, with_file.
  generalize (w ++ [OpenText (path_join save_dir LABELMAP_FILE)]).
  induction label_ids as [|[name idx] label_ids IH]; intros w'; [done|].
  rewrite for_M_cons. unfold emit at 1. apply IH.
Qed.

(** An item without image info raises before anything is written. *)
Lemma make_tf_example_no_image self item w :
  image item = None →
  _make_tf_example self item w =
    (Raise (Exception (lit "Failed to export dataset item '" ++
                       item_id item ++ lit "': item has no image info")), w).
Proof. intros Himg. unfold _make_tf_example. by rewrite Himg. Qed.

(** C5: when the run reaches an item without image info, after the subsets
    [earlier] and the items [pre] of its subset were exported, [__call__]
    raises the exception whose message holds the id of the item; the world
    is the one left by [pre] with the record file closed, so no record of
    the item or of a later item was written, and no later subset was
    started. *)
Theorem missing_image_aborts_run conv extractor save_dir earlier s later name
    pre item post w w1 w2 :
  subsets_to_export extractor = earlier ++ s :: later →
  subset_of extractor s = (name, pre ++ item :: post) →
  has_image item = false →
  for_M (export_subset
           (bind_labels conv (default [] (categories extractor))) extractor
           (make_label_ids (default [] (categories extractor))) save_dir)
        earlier (w ++ [Makedirs save_dir]) = (Ok tt, w1) →
  for_M (write_item (bind_labels conv (default [] (categories extractor)))
           (anno_path save_dir name))
        pre
        ((write_labelmap (make_label_ids (default [] (categories extractor)))
            save_dir w1).2 ++ [OpenRecords (anno_path save_dir name)])
    = (Ok tt, w2) →
  __call__ conv extractor save_dir w =
    (Raise (Exception (lit "Failed to export dataset item '" ++
                       item_id item ++ lit "': item has no image info")),
     w2 ++ [Close (anno_path save_dir name)]).
Proof.
  intros Hsubsets Hsubset Himg Hearlier Hpre.
  assert (image item = None) as Hnone.
  { unfold has_image in Himg. apply bool_decide_eq_false in Himg.
    destruct (image item); [|done]. exfalso. apply Himg. by eexists. }
  unfold __call__. rewrite Hsubsets.
  unfold mbind at 1, M_bind at 1, emit at 1. cbv zeta.
  apply (for_M_raise _ earlier later s _ w1); [done|].
  unfold export_subset. rewrite Hsubset.
  unfold mbind at 1, M_bind at 1.
  pose proof (write_labelmap_ok
                (make_label_ids (default [] (categories extractor)))
                save_dir w1) as Hmap.
  destruct (write_labelmap _ save_dir w1) as [r w1'].
  simpl in Hmap, Hpre. subst r. unfold with_file.
  rewrite (for_M_raise _ pre post item _ w2 w2
             (Exception (lit "Failed to export dataset item '" ++
                         item_id item ++ lit "': item has no image info"))
             Hpre); [done|].
  unfold write_item, mbind, M_bind.
  by rewrite (make_tf_example_no_image _ item w2 Hnone).
Qed.

End RunProps.

(** C5, on [train_extractor]: the subset [train] holds [two_boxes_item],
    then [no_image_item], then [two_boxes_item] again; one record is
    written. *)
Lemma missing_image_aborts_run_witness :
  ∃ w2,
    __call__ (plain_converter false false []) train_extractor (lit "out") [] =
      (Raise (Exception (lit "Failed to export dataset item 'frame_3': " ++
                         lit "item has no image info")),
       w2 ++ [Close (anno_path (lit "out") (lit "train"))]) ∧
    length (records_written w2) = 1%nat.
Proof.
  eexists. split.
  - apply (missing_image_aborts_run (plain_converter false false [])
             train_extractor (lit "out") [] (Some (lit "train")) []
             (lit "train") [two_boxes_item] no_image_item [two_boxes_item]
             [] [Makedirs (lit "out")]);
      [reflexivity|reflexivity|reflexivity|reflexivity|by vm_compute].
  - by vm_compute.
Defined.

Lemma mixed_instances_export :
  ∃ result,
    _export_instances (plain_converter false true [lit "cat"])
      mixed_instances 100 50 = Ok result ∧
    result !! "image/object/class/label" = Some (int64_list [1; 0]) ∧
    result !! "image/object/mask" =
      Some (bytes_list [[Byte.x89; Byte.x50; Byte.x4e; Byte.x47]; []]).
Proof.
  eexists. split; [eval_lhs|]. split; vm_compute; reflexivity.
Qed.

(** C10, on [mixed_instances] with mask export on: every list has two
    entries, and the mask of the second instance is the empty byte string. *)
Lemma exported_lists_are_parallel_witness :
  ∃ result,
    _export_instances (plain_converter false true [lit "cat"])
      mixed_instances 100 50 = Ok result ∧
    result !! "image/object/class/label" = Some (int64_list [1; 0]) ∧
    result !! "image/object/mask" =
      Some (bytes_list [[Byte.x89; Byte.x50; Byte.x4e; Byte.x47]; []]) ∧
    ∃ xmn xmx ymn ymx txt ids,
      result !! "image/object/bbox/xmin" = Some (float_list xmn) ∧
      result !! "image/object/bbox/xmax" = Some (float_list xmx) ∧
      result !! "image/object/bbox/ymin" = Some (float_list ymn) ∧
      result !! "image/object/bbox/ymax" = Some (float_list ymx) ∧
      result !! "image/object/class/text" = Some (bytes_list txt) ∧
      result !! "image/object/class/label" = Some (int64_list ids) ∧
      length xmn = 2%nat ∧ length xmx = 2%nat ∧
      length ymn = 2%nat ∧ length ymx = 2%nat ∧
      length txt = 2%nat ∧ length ids = 2%nat ∧
      ∃ msk, result !! "image/object/mask" = Some (bytes_list msk) ∧
             length msk = 2%nat ∧
             ∀ i leader box,
               mixed_instances !! i = Some (leader, None, box) →
               msk !! i = Some [].
Proof.
  destruct mixed_instances_export as (result & Hres & Hlabel & Hmask).
  exists result. split; [exact Hres|]. split; [exact Hlabel|].
  split; [exact Hmask|].
  destruct (exported_lists_are_parallel
              (plain_converter false true [lit "cat"]) 100 50
              mixed_instances result Hres) as [_ Hlists].
  exact (Hlists ltac:(discriminate)).
Defined.

(** * Further properties of the converter *)

(** ** Groups of contiguous ids *)

Section Contiguous.
Context {A K : Type} `{EqDecision K} (key : A → K).

Lemma groupby_run_later_elems (tgtkey : K) (it : list A) (k : K) (g : list A) :
  (k, g) ∈ (groupby_run key tgtkey it).2 →
  g ≠ [] ∧ (∀ a, a ∈ g → a ∈ it ∧ key a = k).
Proof.
  intros Hin.
  destruct (groupby_run_keys key tgtkey it) as [_ Hkeys].
  rewrite Forall_forall in Hkeys. destruct (Hkeys _ Hin) as [Hne Hall].
  simpl in *. split; [done|]. intros a Ha. split.
  - rewrite <- (groupby_run_concat key tgtkey it), elem_of_app. right.
    apply elem_of_concat. exists g. split; [done|].
    change (g ∈ snd <$> (groupby_run key tgtkey it).2).
    apply list_elem_of_fmap. by exists (k, g).
  - rewrite Forall_forall in Hall. by apply Hall.
Qed.

Lemma groupby_run_later_keys (tgtkey : K) (it : list A) (k : K) :
  k ∈ (groupby_run key tgtkey it).2.*1 → k ∈ map key it.
Proof.
  intros ([k' g] & -> & Hin)%list_elem_of_fmap. simpl.
  destruct (groupby_run_later_elems _ _ _ _ Hin) as [Hne Hall].
  destruct g as [|a g]; [done|]. destruct (Hall a) as [Ha <-]; [by left|].
  change (key a ∈ key <$> it). apply list_elem_of_fmap. by exists a.
Qed.

Lemma groupby_run_NoDup (tgtkey : K) (it : list A) :
  contiguous (map key it) = true →
  tgtkey ∉ after_run tgtkey (map key it) →
  NoDup (tgtkey :: (groupby_run key tgtkey it).2.*1).
Proof.
  revert tgtkey. induction it as [|a it IH]; intros k Hc Hk.
  - simpl. apply NoDup_singleton.
  - simpl in Hc, Hk. apply andb_prop in Hc as [Ha Hc].
    apply bool_decide_eq_true in Ha. simpl.
    destruct (decide (key a = k)) as [<-|Hne].
    + specialize (IH (key a) Hc Hk).
      by destruct (groupby_run key (key a) it) as [g later].
    + specialize (IH (key a) Hc Ha).
      pose proof (groupby_run_later_keys (key a) it k) as Hlater.
      destruct (groupby_run key (key a) it) as [g later]. simpl in *.
      apply NoDup_cons. split; [|done].
      rewrite elem_of_cons. intros [->|Hin]; [done|].
      apply Hk. right. by apply Hlater.
Qed.

(** With contiguous keys, the runs of [groupby] have distinct keys. *)
Lemma groupby_NoDup (it : list A) :
  contiguous (map key it) = true → NoDup ((groupby key it).*1).
Proof.
  destruct it as [|a it]; [intros _; constructor|].
  simpl. intros [Ha Hc]%andb_prop. apply bool_decide_eq_true in Ha.
  pose proof (groupby_run_NoDup (key a) it Hc Ha) as Hnd.
  by destruct (groupby_run key (key a) it) as [g later].
Qed.

Lemma groupby_elems (it : list A) (k : K) (g : list A) :
  (k, g) ∈ groupby key it → ∀ a, a ∈ g → key a = k.
Proof.
  intros Hin a Ha.
  pose proof (groupby_keys key it) as Hk. rewrite Forall_forall in Hk.
  destruct (Hk _ Hin) as [_ Hall]. rewrite Forall_forall in Hall.
  by apply Hall.
Qed.

Lemma groupby_covers (it : list A) (a : A) :
  a ∈ it → ∃ g, (key a, g) ∈ groupby key it ∧ a ∈ g.
Proof.
  intros Ha. rewrite <- (groupby_concat key it) in Ha.
  apply elem_of_concat in Ha as (g & Hag & Hg).
  change (g ∈ snd <$> groupby key it) in Hg.
  apply list_elem_of_fmap in Hg as ([k g'] & -> & Hin). simpl in *.
  exists g'. split; [|done]. by rewrite (groupby_elems it k g' Hin a Hag).
Qed.

End Contiguous.

Lemma NoDup_fst_functional {K V : Type} (l : list (K * V)) (k : K) (v1 v2 : V) :
  NoDup (l.*1) → (k, v1) ∈ l → (k, v2) ∈ l → v1 = v2.
Proof.
  induction l as [|[k' v'] l IH]; intros Hnd H1 H2.
  - by apply elem_of_nil in H1.
  - rewrite fmap_cons in Hnd. apply NoDup_cons in Hnd as [Hk' Hnd].
    assert (∀ v, (k', v) ∈ l → False) as Hfresh.
    { intros v Hv. apply Hk'. simpl.
      apply list_elem_of_fmap. by exists (k', v). }
    apply elem_of_cons in H1 as [E1|H1];
      apply elem_of_cons in H2 as [E2|H2].
    + congruence.
    + simplify_eq. by destruct (Hfresh _ H2).
    + simplify_eq. by destruct (Hfresh _ H1).
    + by apply IH.
Qed.

Section GrouperMore.
Context {Raster : Type}.
Implicit Types (a : Annotation Raster) (g : list (Annotation Raster)).
Implicit Types (annotations : list (Annotation Raster)).

(** X1: when equal group ids are contiguous among the bbox and mask
    annotations, a group with a non-empty id holds every bbox and mask
    annotation of that id: each such id gets one group. *)
Theorem contiguous_ids_share_one_group annotations g a1 a2 :
  contiguous (map group (_find_instance_anns annotations)) = true →
  g ∈ _find_instances annotations → a1 ∈ g → falsy (group a1) = false →
  a2 ∈ annotations →
  type a2 ∈ [AnnotationType.bbox; AnnotationType.mask] →
  group a2 = group a1 →
  a2 ∈ g.
Proof.
  intros Hc Hg Ha1 Hid Ha2 Hty Heq.
  apply find_instances_elem in Hg as (k & grp & Hin & Hshape).
  pose proof (groupby_elems group _ k grp Hin) as Hkeys.
  destruct (falsy k) eqn:Hk.
  - destruct Hshape as (a & Ha & ->).
    apply list_elem_of_singleton in Ha1 as ->.
    rewrite (Hkeys a Ha) in Hid. congruence.
  - subst g. rewrite (Hkeys a1 Ha1) in Heq.
    destruct (groupby_covers group (_find_instance_anns annotations) a2)
      as (g2 & Hin2 & Hag2); [by apply list_elem_of_filter|].
    rewrite Heq in Hin2.
    by rewrite (NoDup_fst_functional _ k grp g2 (groupby_NoDup group _ Hc)
                  Hin Hin2).
Qed.

(** X2: every group of the grouper is non-empty, is made of bbox and mask
    annotations of the input, and its members carry one and the same group
    id. *)
Theorem groups_are_nonempty_and_uniform annotations :
  Forall (λ g, g ≠ [] ∧
               (∀ a, a ∈ g →
                     a ∈ annotations ∧
                     type a ∈ [AnnotationType.bbox; AnnotationType.mask]) ∧
               (∀ a b, a ∈ g → b ∈ g → group a = group b))
         (_find_instances annotations).
Proof.
  apply Forall_forall. intros g Hg. split_and!.
  - by eapply find_instances_nonempty.
  - intros a Ha. by eapply find_instances_kinds.
  - intros a b Ha Hb.
    apply find_instances_elem in Hg as (k & grp & Hin & Hshape).
    destruct (falsy k).
    + destruct Hshape as (c & _ & ->).
      apply list_elem_of_singleton in Ha as ->.
      by apply list_elem_of_singleton in Hb as ->.
    + subst g. pose proof (groupby_elems group _ k grp Hin) as Hkeys.
      by rewrite (Hkeys a Ha), (Hkeys b Hb).
Qed.

Lemma bind_falsy_groups (l : list (option Z * list (Annotation Raster))) :
  Forall (λ kg, falsy kg.1 = true) l →
  l ≫= (λ kg, if falsy kg.1 then map (λ a, [a]) kg.2 else [kg.2])
  = map (λ a, [a]) (concat (l.*2)).
Proof.
  induction 1 as [|[k grp] l Hk _ IH]; [done|].
  rewrite bind_cons, IH, fmap_cons. simpl in *.
  by rewrite Hk, map_app.
Qed.

(** X3: when no bbox or mask annotation carries a group id, the groups are
    the singletons of the bbox and mask annotations, in their order. *)
Theorem ungrouped_input_gives_singletons annotations :
  (∀ a, a ∈ annotations →
        type a ∈ [AnnotationType.bbox; AnnotationType.mask] →
        falsy (group a) = true) →
  _find_instances annotations
  = map (λ a, [a]) (_find_instance_anns annotations).
Proof.
  intros Hall. rewrite find_instances_unfold, bind_falsy_groups.
  - by rewrite groupby_concat.
  - apply Forall_forall. intros [k grp] Hin. simpl.
    pose proof (groupby_keys group (_find_instance_anns annotations)) as Hk.
    rewrite Forall_forall in Hk. destruct (Hk _ Hin) as [Hne Hkeys].
    simpl in *. destruct grp as [|a grp]; [done|].
    apply Forall_cons in Hkeys as [<- _].
    assert (a ∈ _find_instance_anns annotations) as Ha.
    { rewrite <- (groupby_concat group (_find_instance_anns annotations)).
      apply elem_of_concat. exists (a :: grp). split; [by left|].
      change ((a :: grp) ∈ snd <$> groupby group (_find_instance_anns
                                                     annotations)).
      apply list_elem_of_fmap. by exists (group a, a :: grp). }
    apply list_elem_of_filter in Ha as [Hty Ha]. by apply Hall.
Qed.

End GrouperMore.

(** X1, on [contiguous_groups]: the mask of group 1 is in the group of the
    box of group 1. *)
Lemma contiguous_ids_share_one_group_witness :
  mask_ann (Some 1) None 50 (2, 2, 12, 4)
  ∈ [ box_ann (Some 1) None 100 (0, 0, 10, 10);
      mask_ann (Some 1) None 50 (2, 2, 12, 4) ].
Proof.
  apply (contiguous_ids_share_one_group contiguous_groups _
           (box_ann (Some 1) None 100 (0, 0, 10, 10))).
  - reflexivity.
  - assert (_find_instances contiguous_groups =
            [ [ box_ann (Some 1) None 100 (0, 0, 10, 10);
                mask_ann (Some 1) None 50 (2, 2, 12, 4) ];
              [ box_ann None None 30 (40, 40, 5, 5) ];
              [ box_ann (Some 2) None 100 (20, 20, 10, 10) ] ]) as ->
      by (by vm_compute).
    by left.
  - by left.
  - reflexivity.
  - unfold contiguous_groups. right. by left.
  - right. by left.
  - reflexivity.
Defined.

(** X3, on the two ungrouped boxes of [two_boxes_item]. *)
Lemma ungrouped_input_gives_singletons_witness :
  _find_instances (annotations two_boxes_item)
  = [ [box_ann None (Some 0) 100 (0, 0, 10, 10)];
      [box_ann None None 300 (20, 20, 30, 10)] ].
Proof.
  rewrite (ungrouped_input_gives_singletons (annotations two_boxes_item)).
  - reflexivity.
  - intros a Ha _. unfold two_boxes_item in Ha. simpl in Ha.
    rewrite !elem_of_cons in Ha.
    by destruct Ha as [->|[->|Ha%elem_of_nil]].
Defined.

(** ** The union box *)

Section BoxMore.
Context {Raster : Type} `{!Externals Raster}.
Variable self : TfDetectionApiConverter.
Implicit Types (a : Annotation Raster) (anns : list (Annotation Raster)).

(** X4: the union box does not depend on the order of the annotations. *)
Theorem compute_bbox_permutation anns anns' :
  anns ≡ₚ anns' → _compute_bbox anns = _compute_bbox anns'.
Proof.
  intros Hp.
  assert (∀ a, a ∈ anns ↔ a ∈ anns') as Hmem by (intros a; by rewrite Hp).
  assert (∀ a, a ∈ anns' ↔ a ∈ anns') as Hrefl by done.
  pose proof (map_members get_bbox _ _ Hmem) as Hb.
  pose proof (map_members get_bbox _ _ Hrefl) as Hb'.
  unfold _compute_bbox. cbv zeta.
  rewrite !(py_min_members _ _ (map_members _ _ _ Hb)).
  rewrite !(py_max_members _ _ (map_members _ _ _ Hb)).
  rewrite !(py_min_members _ _ (map_members _ _ _ Hb')).
  by rewrite !(py_max_members _ _ (map_members _ _ _ Hb')).
Qed.

(** X5: the union box encloses the bounding rectangle of every annotation
    it is computed from. *)
Theorem compute_bbox_encloses_members anns :
  Forall (λ a, encloses (_compute_bbox anns) (get_bbox a)) anns.
Proof.
  apply Forall_forall. intros a Ha.
  destruct anns as [|a0 l] eqn:E; [by apply elem_of_nil in Ha|].
  rewrite <- E in *. 
  assert (Hin : ∀ f : Rect → Z, f (get_bbox a) ∈ map f (map get_bbox anns)).
  { intros f. rewrite map_map.
    change (f (get_bbox a) ∈ (λ x, f (get_bbox x)) <$> anns).
    apply list_elem_of_fmap. by exists a. }
  assert (Hmin : ∀ f : Rect → Z,
            py_min (map f (map get_bbox anns)) 0 ≤ f (get_bbox a)).
  { intros f. specialize (Hin f). rewrite E in *.
    by apply foldl_min_least. }
  assert (Hmax : ∀ f : Rect → Z,
            f (get_bbox a) ≤ py_max (map f (map get_bbox anns)) 0).
  { intros f. specialize (Hin f). rewrite E in *.
    by apply foldl_max_greatest. }
  pose proof (Hmin b0) as H0. pose proof (Hmin b1) as H1.
  pose proof (Hmax (λ b, b0 b + b2 b)) as H2.
  pose proof (Hmax (λ b, b1 b + b3 b)) as H3.
  unfold _compute_bbox. cbv zeta. revert H0 H1 H2 H3.
  generalize (py_min (map b0 (map get_bbox anns)) 0)
    (py_min (map b1 (map get_bbox anns)) 0)
    (py_max (map (λ b, b0 b + b2 b) (map get_bbox anns)) 0)
    (py_max (map (λ b, b1 b + b3 b) (map get_bbox anns)) 0).
  intros x0 y0 x1 y1 H0 H1 H2 H3.
  unfold encloses, b0, b1, b2, b3 in *. simpl. lia.
Qed.

(** X6: a bbox or mask annotation alone in its group is the leader of its
    instance, and the box of the instance is its own bounding rectangle. *)
Theorem singleton_group_instance a w h :
  type a ∈ [AnnotationType.bbox; AnnotationType.mask] →
  ∃ mask, _find_instance_parts self [a] w h = Ok (a, mask, get_bbox a).
Proof.
  intros Hty.
  assert (group_anns [a] = [a]) as Eg.
  { unfold group_anns. rewrite !elem_of_cons in Hty.
    rewrite !filter_cons, !filter_nil.
    destruct (decide (type a = AnnotationType.bbox)) as [Hb|Hb],
      (decide (type a = AnnotationType.mask)) as [Hm|Hm]; try done.
    - congruence.
    - by destruct Hty as [?|[?|?%elem_of_nil]]. }
  rewrite (find_instance_parts_cons self [a] w h a [] Eg).
  eexists. do 2 f_equal. rewrite Eg.
  unfold _compute_bbox. simpl.
  destruct (get_bbox a) as [[[x y] bw] bh].
  unfold b0, b1, b2, b3. simpl. repeat f_equal; lia.
Qed.

End BoxMore.

(** X4, on the two members of [mask_then_box] in both orders. *)
Lemma compute_bbox_permutation_witness :
  _compute_bbox mask_then_box = _compute_bbox (reverse mask_then_box).
Proof.
  apply (compute_bbox_permutation mask_then_box (reverse mask_then_box)).
  symmetry. apply reverse_Permutation.
Defined.

(** X6, on the mask of [lone_mask]. *)
Lemma singleton_group_instance_witness :
  ∃ mask,
    _find_instance_parts (plain_converter false true []) lone_mask 100 50
    = Ok (mask_ann (Some 1) None 12 (1, 2, 3, 4), mask, (1, 2, 3, 4)).
Proof.
  apply (singleton_group_instance (plain_converter false true [])
           (mask_ann (Some 1) None 12 (1, 2, 3, 4)) 100 50).
  right. by left.
Defined.

(** ** The printable filter and the label ids *)

(** X7: the printable filter returns printable ASCII characters only, keeps
    a string of such characters as it is, and applying it twice is applying
    it once. *)
Theorem make_printable_idempotent (s : pystr) :
  Forall printable_ascii (_make_printable s) ∧
  (Forall printable_ascii s → _make_printable s = s) ∧
  _make_printable (_make_printable s) = _make_printable s.
Proof.
  assert (Hfix : ∀ t : pystr, Forall printable_ascii t →
                              _make_printable t = t).
  { intros t Ht. rewrite make_printable_filter.
    induction Ht as [|c t Hc _ IH]; [done|].
    unfold pystr in *. rewrite filter_cons, decide_True by done.
    by f_equal. }
  assert (Forall printable_ascii (_make_printable s)) as Hall.
  { rewrite make_printable_filter. apply Forall_forall.
    by intros c [Hc _]%list_elem_of_filter. }
  split_and!; [done|apply Hfix|by apply Hfix].
Qed.

Lemma od_set_fresh {K V : Type} `{EqDecision K} (k : K) (v : V)
    (d : list (K * V)) :
  k ∉ d.*1 → od_set k v d = d ++ [(k, v)].
Proof.
  induction d as [|[k' v'] d IH]; intros Hk; [done|].
  rewrite fmap_cons, not_elem_of_cons in Hk. destruct Hk as [Hne Hk].
  simpl in *. rewrite decide_False by done. by rewrite IH.
Qed.

Lemma foldl_od_set_fresh {K V : Type} `{EqDecision K} (l d : list (K * V)) :
  NoDup ((d ++ l).*1) →
  foldl (λ d '(name, idx), od_set name idx d) d l = d ++ l.
Proof.
  revert d. induction l as [|[k v] l IH]; intros d Hnd; simpl.
  - by rewrite app_nil_r.
  - assert (k ∉ d.*1) as Hk.
    { rewrite fmap_app, fmap_cons in Hnd. simpl in Hnd.
      apply NoDup_app in Hnd as (_ & Hdisj & _).
      intros Hin. apply (Hdisj k Hin). by left. }
    rewrite (od_set_fresh k v d Hk), IH; rewrite <- app_assoc; done.
Qed.

Lemma imap_keys {B C : Type} (g : nat → C) (l : list B) :
  (imap (λ idx x, (x, g idx)) l).*1 = l.
Proof.
  revert g. induction l as [|x l IH]; intros g; [done|].
  simpl. f_equal. apply (IH (g ∘ S)).
Qed.

Lemma od_get_imap {B C : Type} `{EqDecision B} (g : nat → C) (l : list B)
    (i : nat) (x : B) (d : C) :
  NoDup l → l !! i = Some x →
  od_get (imap (λ idx x, (x, g idx)) l) x d = g i.
Proof.
  revert g i. induction l as [|y l IH]; intros g i Hnd Hi; [done|].
  apply NoDup_cons in Hnd as [Hy Hnd]. simpl.
  destruct i as [|i]; simpl in Hi.
  - injection Hi as ->. by rewrite decide_True.
  - rewrite decide_False.
    + apply (IH (g ∘ S) i Hnd Hi).
    + intros ->. apply Hy. by eapply list_elem_of_lookup_2.
Qed.

(** X8: with distinct names in the catalog, the label with index [i] gets
    the id [1 + i]. *)
Theorem label_ids_are_dense (label_categories : LabelCategories) (i : Z) :
  NoDup label_categories →
  0 ≤ i < Z.of_nat (length label_categories) →
  map_label_id label_categories (Some i) = Ok (1 + i).
Proof.
  intros Hnd Hi. unfold map_label_id, get_label, py_index.
  rewrite (decide_False (P := i < 0)) by lia. rewrite decide_True by lia.
  destruct (lookup_lt_is_Some_2 label_categories (Z.to_nat i)) as [x Hx];
    [lia|].
  rewrite Hx. simpl. f_equal. unfold make_label_ids.
  rewrite foldl_od_set_fresh by (rewrite app_nil_l, imap_keys; done).
  rewrite app_nil_l.
  rewrite (od_get_imap (λ idx, 1 + Z.of_nat idx) _ _ _ 0 Hnd Hx). lia.
Qed.

(** X9: [get_label] raises [IndexError] exactly for an index outside
    [-N .. N-1], [N] the size of the catalog; a negative index within this
    range counts from the end of the catalog. *)
Theorem get_label_index_error (label_categories : LabelCategories) (i : Z) :
  (get_label label_categories (Some i) = Raise IndexError ↔
   ¬ (- Z.of_nat (length label_categories) ≤ i
      < Z.of_nat (length label_categories))) ∧
  (- Z.of_nat (length label_categories) ≤ i < 0 →
   get_label label_categories (Some i)
   = get_label label_categories
       (Some (i + Z.of_nat (length label_categories)))).
Proof.
  split.
  - split.
    + intros Hraise Hi.
      destruct (get_label_ok label_categories (Some i) Hi) as [x Hx].
      congruence.
    + intros Hi. simpl. unfold py_index.
      destruct (decide (i < 0)); rewrite decide_False; done || lia.
  - intros Hi. simpl. unfold py_index.
    rewrite (decide_True (P := i < 0)) by lia.
    by rewrite (decide_False
                  (P := i + Z.of_nat (length label_categories) < 0)) by lia.
Qed.

(** X8, on a catalog of two names. *)
Lemma label_ids_are_dense_witness :
  map_label_id [lit "cat"; lit "dog"] (Some 1) = Ok 2.
Proof.
  apply (label_ids_are_dense [lit "cat"; lit "dog"] 1).
  - refine (bool_decide_unpack _ _). by vm_compute.
  - simpl. lia.
Defined.

(** ** The features of an item *)

Lemma export_instances_other_keys {Raster : Type} `{!Externals Raster}
    (self : TfDetectionApiConverter) (instances : list (Instance_ Raster))
    (width height : Z) (result : gmap string Feature) (key : string) :
  _export_instances self instances width height = Ok result →
  key ∉ object_keys → result !! key = None.
Proof.
  unfold _export_instances, object_keys. intros Hres Hkey.
  rewrite !not_elem_of_cons in Hkey.
  destruct Hkey as (? & ? & ? & ? & ? & ? & ? & _).
  unfold mbind at 1, result_bind at 1 in Hres.
  destruct (for_each _ _ instances) as [acc|]; [|discriminate].
  injection Hres as <-.
  destruct (decide (classes acc = [])); [apply lookup_empty|].
  destruct (decide (masks acc = [])); by simplify_map_eq.
Qed.

Ltac image_key :=
  rewrite ?lookup_union, ?lookup_insert, ?lookup_empty;
  repeat case_decide; done.

Section ItemMore.
Context {Raster : Type} `{!Externals Raster}.
Variable self : TfDetectionApiConverter.
Implicit Types (item : DatasetItem Raster).

(** X10: the example of an item carries the id of the item as source id,
    the id followed by the image extension as file name, and the height and
    width of the image. *)
Theorem image_features_of_example item w0 ex w' :
  _make_tf_example self item w0 = (Ok ex, w') →
  ∃ img,
    image item = Some img ∧
    ex !! "image/source_id"
      = Some (bytes_list [encode_utf8 (item_id item)]) ∧
    ex !! "image/filename"
      = Some (bytes_list [encode_utf8 (item_id item ++ IMAGE_EXT)]) ∧
    ex !! "image/height" = Some (int64_list [(size img).1]) ∧
    ex !! "image/width" = Some (int64_list [(size img).2]).
Proof.
  unfold _make_tf_example. destruct (image item) as [img|]; [|done].
  destruct (size img) as [h w] eqn:Hsize. simpl.
  unfold mbind, M_bind, lift, mret, M_ret, emit.
  intros Hrun.
  match type of Hrun with
  | context [mapM ?f ?l] => destruct (mapM f l) as [instances|] eqn:Hparts
  end.
  2:{ destruct (_save_images self); [destruct (data img)|]; done. }
  destruct (_export_instances self instances w h) as [exported|] eqn:Hexp.
  2:{ destruct (_save_images self); [destruct (data img)|]; done. }
  assert (∀ key, key ∉ object_keys → exported !! key = None) as Hother.
  { intros key. by apply (export_instances_other_keys _ _ _ _ _ _ Hexp). }
  assert (Hk : ∀ key, key ∈ [ "image/source_id"; "image/filename";
                              "image/height"; "image/width" ] →
                      exported !! key = None).
  { intros key Hkey. apply Hother. unfold object_keys.
    rewrite !elem_of_cons in Hkey. rewrite !not_elem_of_cons.
    destruct Hkey as [->|[->|[->|[->|Hkey%elem_of_nil]]]]; [| | | |done];
      split_and!; try discriminate; apply not_elem_of_nil. }
  pose proof (Hk "image/source_id" ltac:(rewrite !elem_of_cons; auto)) as K1.
  pose proof (Hk "image/filename" ltac:(rewrite !elem_of_cons; auto)) as K2.
  pose proof (Hk "image/height" ltac:(rewrite !elem_of_cons; auto)) as K3.
  pose proof (Hk "image/width" ltac:(rewrite !elem_of_cons; auto)) as K4.
  exists img. rewrite Hsize. unfold int64_feature, bytes_feature in *.
  destruct (_save_images self); [destruct (data img)|];
    injection Hrun as <- <-; (split; [done|]);
    rewrite !(lookup_union_r exported) by done;
    split_and!; image_key.
Qed.

(** X11: the image bytes and the image format of an example.  Without
    image saving both are empty and nothing is logged; with image saving and
    pixel data they are the encoded image and the format name; with image
    saving and no pixel data both are empty and one warning is logged, the
    item is still converted. *)
Theorem image_bytes_of_example item img w0 ex w' :
  image item = Some img →
  _make_tf_example self item w0 = (Ok ex, w') →
  match _save_images self, data img with
  | true, Some pixels =>
      w' = w0 ∧
      ex !! "image/encoded"
        = Some (bytes_list [encode_image pixels IMAGE_EXT]) ∧
      ex !! "image/format" = Some (bytes_list [encode_utf8 IMAGE_FORMAT])
  | true, None =>
      w' = w0 ++ [LogWarning (lit "Item '" ++ item_id item ++
                              lit "' has no image")] ∧
      ex !! "image/encoded" = Some (bytes_list [[]]) ∧
      ex !! "image/format" = Some (bytes_list [[]])
  | false, _ =>
      w' = w0 ∧
      ex !! "image/encoded" = Some (bytes_list [[]]) ∧
      ex !! "image/format" = Some (bytes_list [[]])
  end.
Proof.
  intros Himg. unfold _make_tf_example. rewrite Himg.
  destruct (size img) as [h w] eqn:Hsize. simpl.
  unfold mbind, M_bind, lift, mret, M_ret, emit.
  intros Hrun.
  match type of Hrun with
  | context [mapM ?f ?l] => destruct (mapM f l) as [instances|] eqn:Hparts
  end.
  2:{ destruct (_save_images self); [destruct (data img)|]; done. }
  destruct (_export_instances self instances w h) as [exported|] eqn:Hexp.
  2:{ destruct (_save_images self); [destruct (data img)|]; done. }
  assert (Hk : ∀ key, key ∈ [ "image/encoded"; "image/format" ] →
                      exported !! key = None).
  { intros key Hkey. apply (export_instances_other_keys _ _ _ _ _ _ Hexp).
    unfold object_keys.
    rewrite !elem_of_cons in Hkey. rewrite !not_elem_of_cons.
    destruct Hkey as [->|[->|Hkey%elem_of_nil]]; [| |done];
      split_and!; try discriminate; apply not_elem_of_nil. }
  pose proof (Hk "image/encoded" ltac:(rewrite !elem_of_cons; auto)) as K1.
  pose proof (Hk "image/format" ltac:(rewrite !elem_of_cons; auto)) as K2.
  unfold int64_feature, bytes_feature in *.
  destruct (_save_images self); [destruct (data img)|];
    injection Hrun as <- <-; (split; [done|]);
    rewrite !(lookup_union_r exported) by done;
    split_and!; image_key.
Qed.

(** X12: an item with image info and without bbox and mask annotations is
    always converted, whatever the size of its image and the labels of its
    other annotations, and its example has none of the per-instance
    features. *)
Theorem item_without_instances_converts item img w0 :
  image item = Some img →
  _find_instance_anns (annotations item) = [] →
  ∃ ex w',
    _make_tf_example self item w0 = (Ok ex, w') ∧
    ∀ key, key ∈ object_keys → ex !! key = None.
Proof.
  intros Himg Hnone.
  assert (_find_instances (annotations item) = []) as Hgroups
    by (unfold _find_instances; by rewrite Hnone).
  destruct (size img) as [h w] eqn:Hsize.
  destruct (make_tf_example_ok self item img h w w0 [] ∅ Himg Hsize)
    as (features & w' & Hrun & Hfeat).
  - by rewrite Hgroups.
  - done.
  - exists (∅ ∪ features), w'. split; [done|].
    intros key Hkey. rewrite lookup_union_r by apply lookup_empty.
    destruct (Hfeat key) as [|Hbad]; [done|]. exfalso.
    unfold object_keys in Hkey. rewrite !elem_of_cons in Hkey.
    rewrite !elem_of_cons in Hbad.
    destruct Hkey as [->|[->|[->|[->|[->|[->|[->|Hk]]]]]]];
      [| | | | | | |by apply elem_of_nil in Hk];
      destruct Hbad as [?|[?|[?|[?|[?|[?|Hb]]]]]];
      first [discriminate|by apply elem_of_nil in Hb].
Qed.

End ItemMore.

(** X12, on [caption_only_item]: an image of size 0 by 0 and one annotation
    of another kind, with a label outside the empty catalog. *)
Lemma item_without_instances_converts_witness :
  ∃ ex w',
    _make_tf_example (plain_converter true false []) caption_only_item []
      = (Ok ex, w') ∧
    ∀ key, key ∈ object_keys → ex !! key = None.
Proof.
  apply (item_without_instances_converts (plain_converter true false [])
           caption_only_item {| size := (0, 0); data := None |} []);
    reflexivity.
Defined.

Lemma two_boxes_run_saving :
  ∃ ex w',
    _make_tf_example (plain_converter true false [lit "cat"])
      two_boxes_item [] = (Ok ex, w').
Proof. eexists _, _. eval_lhs. Qed.

(** X10, on [two_boxes_item]. *)
Lemma image_features_of_example_witness :
  ∃ ex w',
    _make_tf_example (plain_converter true false [lit "cat"])
      two_boxes_item [] = (Ok ex, w') ∧
    ex !! "image/source_id" = Some (bytes_list [ascii_bytes (lit "frame_1")]) ∧
    ex !! "image/height" = Some (int64_list [50]) ∧
    ex !! "image/width" = Some (int64_list [100]).
Proof.
  destruct two_boxes_run_saving as (ex & w' & Hrun). exists ex, w'.
  destruct (image_features_of_example _ _ _ _ _ Hrun)
    as (img & Himg & K1 & _ & K3 & K4).
  injection Himg as <-. by split_and!.
Defined.

(** X11, on [two_boxes_item], whose image has no pixel data, with image
    saving on: one warning, empty image bytes. *)
Lemma image_bytes_of_example_witness :
  ∃ ex w',
    _make_tf_example (plain_converter true false [lit "cat"])
      two_boxes_item [] = (Ok ex, w') ∧
    w' = [LogWarning (lit "Item 'frame_1' has no image")] ∧
    ex !! "image/encoded" = Some (bytes_list [[]]) ∧
    ex !! "image/format" = Some (bytes_list [[]]).
Proof.
  destruct two_boxes_run_saving as (ex & w' & Hrun). exists ex, w'.
  split; [exact Hrun|].
  exact (image_bytes_of_example (plain_converter true false [lit "cat"])
           two_boxes_item image_100x50 [] ex w' eq_refl Hrun).
Defined.

(** ** The records of a subset and the label map *)

Lemma records_written_app (w1 w2 : list Event) :
  records_written (w1 ++ w2) = records_written w1 ++ records_written w2.
Proof. unfold records_written. apply bind_app. Qed.

Lemma truediv_inv (a b : Z) (q : Q) :
  truediv a b = Ok q → b ≠ 0 ∧ q = (inject_Z a / inject_Z b)%Q.
Proof.
  unfold truediv. destruct (decide (b = 0)); [done|]. by intros [= <-].
Qed.

Lemma imap_fmap_compose {B C D : Type} (f : nat → B → C) (g : C → D)
    (l : list B) :
  map g (imap f l) = imap (λ i x, g (f i x)) l.
Proof.
  revert f. induction l as [|x l IH]; intros f; [done|].
  simpl. f_equal. apply (IH (f ∘ S)).
Qed.

Section SubsetMore.
Context {Raster : Type} `{!Externals Raster}.
Implicit Types (item : DatasetItem Raster) (extractor : Extractor Raster).

Lemma make_tf_example_records self item (w : list Event) :
  records_written (_make_tf_example self item w).2 = records_written w.
Proof.
  unfold _make_tf_example. destruct (image item) as [img|]; [|done].
  destruct (size img) as [h wd]. simpl.
  unfold mbind, M_bind, lift, mret, M_ret, emit.
  destruct (_save_images self); [destruct (data img)|]; simpl;
    repeat match goal with
           | |- context [match ?r with Ok _ => _ | Raise _ => _ end] =>
               destruct r; simpl
           end;
    rewrite ?records_written_app, ?app_nil_r; done.
Qed.

Lemma write_items_records self (path : pystr)
    (items : list (DatasetItem Raster)) (w : list Event) :
  ∃ recs,
    records_written (for_M (write_item self path) items w).2
      = records_written w ++ recs ∧
    Forall2 (λ item ex, ∃ w1 w2, _make_tf_example self item w1 = (Ok ex, w2))
            (take (length recs) items) recs ∧
    ((for_M (write_item self path) items w).1 = Ok tt →
     length recs = length items) ∧
    (∀ e, (for_M (write_item self path) items w).1 = Raise e →
          (length recs < length items)%nat).
Proof.
  revert w. induction items as [|item items IH]; intros w.
  - exists []. simpl. rewrite app_nil_r. by split_and!.
  - assert (for_M (write_item self path) (item :: items) w =
            match _make_tf_example self item w with
            | (Ok ex, w1) =>
                for_M (write_item self path) items
                      (w1 ++ [WriteRecord path ex])
            | (Raise e, w1) => (Raise e, w1)
            end) as ->.
    { rewrite for_M_cons. unfold write_item, mbind, M_bind, emit.
      by destruct (_make_tf_example self item w) as [[?|?] ?]. }
    pose proof (make_tf_example_records self item w) as Hrec.
    destruct (_make_tf_example self item w) as [[ex|e] w1] eqn:Hrun.
    + simpl in Hrec.
      destruct (IH (w1 ++ [WriteRecord path ex])) as (recs & Hw & HF & Hok & Hr).
      exists (ex :: recs). split_and!.
      * rewrite Hw, records_written_app, Hrec, <- app_assoc. done.
      * simpl. constructor; [by exists w, w1|done].
      * intros Hres. simpl. f_equal. by apply Hok.
      * intros e Hres. simpl. apply Hr in Hres. lia.
    + exists []. simpl in *. rewrite app_nil_r.
      split_and!; [done|constructor|done|intros; lia].
Qed.

Lemma write_labelmap_trace (label_ids : list (pystr * Z)) (save_dir : pystr)
    (w : list Event) :
  write_labelmap label_ids save_dir w =
    (Ok tt,
     w ++ [OpenText (path_join save_dir LABELMAP_FILE)] ++
     map (λ '(label_name, idx),
            WriteText (path_join save_dir LABELMAP_FILE)
                      (labelmap_entry label_name idx)) label_ids ++
     [Close (path_join save_dir LABELMAP_FILE)]).
Proof.
  unfold write_labelmap, with_file.
  assert (∀ w0 : list Event,
            for_M (λ '(label_name, idx),
                     emit (WriteText (path_join save_dir LABELMAP_FILE)
                                     (labelmap_entry label_name idx)))
                  label_ids w0 =
            (Ok tt, w0 ++ map (λ '(label_name, idx),
                                 WriteText (path_join save_dir LABELMAP_FILE)
                                   (labelmap_entry label_name idx))
                              label_ids)) as Hloop.
  { induction label_ids as [|[name idx] label_ids IH]; intros w0.
    - simpl. by rewrite app_nil_r.
    - rewrite for_M_cons. unfold emit at 1. rewrite IH.
      simpl. by rewrite <- app_assoc. }
  rewrite Hloop. by rewrite <- !app_assoc.
Qed.

(** X13: the records that the export of one subset adds to the trace are
    the examples of the first items of the subset, in their order: of all
    its items when the export returns, of fewer when it raises. *)
Theorem subset_writes_one_record_per_item self extractor label_ids save_dir
    subset_name (w : list Event) :
  ∃ recs,
    records_written
      (export_subset self extractor label_ids save_dir subset_name w).2
      = records_written w ++ recs ∧
    Forall2 (λ item ex, ∃ w1 w2, _make_tf_example self item w1 = (Ok ex, w2))
            (take (length recs) (subset_of extractor subset_name).2) recs ∧
    ((export_subset self extractor label_ids save_dir subset_name w).1
       = Ok tt →
     length recs = length (subset_of extractor subset_name).2) ∧
    (∀ e, (export_subset self extractor label_ids save_dir subset_name w).1
            = Raise e →
          (length recs < length (subset_of extractor subset_name).2)%nat).
Proof.
  unfold export_subset.
  destruct (subset_of extractor subset_name) as [name subset]. simpl.
  set (events := [OpenText (path_join save_dir LABELMAP_FILE)] ++
                 map (λ '(label_name, idx),
                        WriteText (path_join save_dir LABELMAP_FILE)
                                  (labelmap_entry label_name idx)) label_ids ++
                 [Close (path_join save_dir LABELMAP_FILE)]).
  assert (records_written events = []) as Hevents.
  { unfold events. rewrite !records_written_app.
    assert (∀ l : list (pystr * Z),
              records_written
                (map (λ '(label_name, idx),
                        WriteText (path_join save_dir LABELMAP_FILE)
                                  (labelmap_entry label_name idx)) l) = [])
      as ->; [|done].
    induction l as [|[n i] l IH]; [done|]. exact IH. }
  set (w1 := (w ++ events) ++ [OpenRecords (anno_path save_dir name)]).
  assert ((write_labelmap label_ids save_dir ;;
           with_file (OpenRecords (anno_path save_dir name))
             (anno_path save_dir name)
             (for_M (write_item self (anno_path save_dir name)) subset)) w
          = ((for_M (write_item self (anno_path save_dir name)) subset w1).1,
             (for_M (write_item self (anno_path save_dir name)) subset w1).2
             ++ [Close (anno_path save_dir name)])) as ->.
  { unfold mbind, M_bind. rewrite write_labelmap_trace. unfold with_file.
    fold events. fold w1.
    by destruct (for_M (write_item self (anno_path save_dir name)) subset w1). }
  destruct (write_items_records self (anno_path save_dir name) subset w1)
    as (recs & Hw & HF & Hok & Hr).
  exists recs. simpl. split_and!; try done.
  rewrite records_written_app, Hw. unfold w1.
  rewrite !records_written_app, Hevents. simpl.
  by rewrite !app_nil_r.
Qed.

(** X15: for a catalog of distinct names, the label map is opened, gets
    one entry per name in the order of the catalog, with the ids 1, 2, ...,
    and is closed. *)
Theorem labelmap_lists_catalog (label_categories : LabelCategories)
    (save_dir : pystr) (w : list Event) :
  NoDup label_categories →
  write_labelmap (make_label_ids label_categories) save_dir w =
    (Ok tt,
     w ++ [OpenText (path_join save_dir LABELMAP_FILE)] ++
     imap (λ i name, WriteText (path_join save_dir LABELMAP_FILE)
                       (labelmap_entry name (1 + Z.of_nat i)))
          label_categories ++
     [Close (path_join save_dir LABELMAP_FILE)]).
Proof.
  intros Hnd. rewrite write_labelmap_trace. unfold make_label_ids.
  rewrite foldl_od_set_fresh by (rewrite app_nil_l, imap_keys; done).
  rewrite app_nil_l. by rewrite imap_fmap_compose.
Qed.

End SubsetMore.

Section FormulaMore.
Context {Raster : Type} `{!Externals Raster}.
Variable self : TfDetectionApiConverter.
Implicit Types (instances : list (Instance_ Raster)).

Lemma quotients_of_boxes instances (f : Instance_ Raster → Z) (D : Z)
    (qs : list Q) :
  Forall2 (λ inst q, truediv (f inst) D = Ok q) instances qs →
  qs = map (λ inst, (inject_Z (f inst) / inject_Z D)%Q) instances ∧
  (instances ≠ [] → D ≠ 0).
Proof.
  induction 1 as [|inst q instances qs Hq _ [IH _]].
  - by split.
  - apply truediv_inv in Hq as [HD ->]. split; [by rewrite IH|done].
Qed.

(** X14: for a non-empty list of instances that is exported, width and
    height are not 0, and the coordinate lists hold, instance by instance,
    the quotients [x / width], [(x + w) / width], [y / height] and
    [(y + h) / height] of the box [(x, y, w, h)] of the instance. *)
Theorem normalized_coordinates_formula instances width height result :
  _export_instances self instances width height = Ok result →
  instances ≠ [] →
  width ≠ 0 ∧ height ≠ 0 ∧
  result !! "image/object/bbox/xmin" =
    Some (float_list
            (map (λ inst, (inject_Z (b0 inst.2) / inject_Z width)%Q)
                 instances)) ∧
  result !! "image/object/bbox/xmax" =
    Some (float_list
            (map (λ inst, (inject_Z (b0 inst.2 + b2 inst.2)
                           / inject_Z width)%Q) instances)) ∧
  result !! "image/object/bbox/ymin" =
    Some (float_list
            (map (λ inst, (inject_Z (b1 inst.2) / inject_Z height)%Q)
                 instances)) ∧
  result !! "image/object/bbox/ymax" =
    Some (float_list
            (map (λ inst, (inject_Z (b1 inst.2 + b3 inst.2)
                           / inject_Z height)%Q) instances)).
Proof.
  intros Hres Hne.
  apply export_instances_spec in Hres
    as (xmn & xmx & ymn & ymx & txt & ids & msk & F1 & F2 & F3 & F4 & _ & _ &
        _ & _ & Hkeys).
  destruct (Hkeys Hne) as (K1 & K2 & K3 & K4 & _).
  apply quotients_of_boxes in F1 as [-> HW].
  apply quotients_of_boxes in F2 as [-> _].
  apply quotients_of_boxes in F3 as [-> HH].
  apply quotients_of_boxes in F4 as [-> _].
  split_and!; auto.
Qed.

End FormulaMore.

(** X14, on [mixed_instances] in a 100 by 50 image. *)
Lemma normalized_coordinates_formula_witness :
  ∃ result,
    _export_instances (plain_converter false true [lit "cat"])
      mixed_instances 100 50 = Ok result ∧
    result !! "image/object/bbox/xmax" =
      Some (float_list [10 # 100; 50 # 100]%Q) ∧
    result !! "image/object/bbox/ymax" =
      Some (float_list [10 # 50; 30 # 50]%Q).
Proof.
  destruct mixed_instances_export as (result & Hres & _). exists result.
  split; [exact Hres|].
  destruct (normalized_coordinates_formula
              (plain_converter false true [lit "cat"]) mixed_instances
              100 50 result Hres)
    as (_ & _ & _ & K2 & _ & K4); [discriminate|].
  split; [exact K2|exact K4].
Defined.

(** X15, on a catalog of two names. *)
Lemma labelmap_lists_catalog_witness :
  write_labelmap (make_label_ids [lit "cat"; lit "dog"]) (lit "out") [] =
    (Ok tt,
     [ OpenText (lit "out/label_map.pbtxt");
       WriteText (lit "out/label_map.pbtxt")
                 (labelmap_entry (lit "cat") 1);
       WriteText (lit "out/label_map.pbtxt")
                 (labelmap_entry (lit "dog") 2);
       Close (lit "out/label_map.pbtxt") ]).
Proof.
  assert (NoDup [lit "cat"; lit "dog"]) as Hnd
    by (refine (bool_decide_unpack _ _); by vm_compute).
  exact (labelmap_lists_catalog (Raster := unit) [lit "cat"; lit "dog"]
           (lit "out") [] Hnd).
Defined.
